(** * OpflowQNN: a parametrized opflow operator used as a neural network

    Shallow embedding of
    [qiskit_machine_learning/neural_networks/opflow_qnn.py].

    The module is glue around two collaborators:
    - numpy, whose arrays are modelled below as a shape together with the
      row-major list of their entries, with the operations the module calls
      ([np.zeros], [np.real], [reshape(-1, ...)], basic indexing, row
      assignment) written out including the exceptions they raise;
    - the opflow engine (operators, converters, samplers), which stays
      abstract: its operations are the methods of the class [Opflow]. *)

From stdpp Require Import gmap strings list fin_maps.

Set Default Proof Using "Type".
Set Warnings "-register-all".

(** ** Exceptions and fallible computations *)

(** The exceptions that can leave the module.  Whatever a collaborator
    raises is kept apart from the module's own
    [QiskitMachineLearningError] and from the built-in exceptions raised by
    indexing and reshaping. *)
Inductive exn :=
| QiskitMachineLearningError (msg : string)
| IndexError
| TypeError
| AttributeError
| ValueError
| CollaboratorError (msg : string).

Inductive result (A : Type) :=
| Ok (a : A)
| Raise (e : exn).
Arguments Ok {A} a.
Arguments Raise {A} e.

#[global] Instance result_ret : MRet result := λ A a, Ok a.
#[global] Instance result_bind : MBind result := λ A B f m,
  match m with
  | Ok a => f a
  | Raise e => Raise e
  end.
#[global] Instance result_fmap : FMap result := λ A B f m,
  match m with
  | Ok a => Ok (f a)
  | Raise e => Raise e
  end.

(** A call into a collaborator: it returns or raises an error of its own. *)
Definition call {A : Type} (r : string + A) : result A :=
  match r with
  | inr a => Ok a
  | inl msg => Raise (CollaboratorError msg)
  end.

Definition is_Ok {A : Type} (r : result A) : bool :=
  match r with
  | Ok _ => true
  | Raise _ => false
  end.

(** ** numpy *)

Module np.

(** [math.prod] of a shape: the number of entries of an array. *)
Definition prod (dims : list nat) : nat := foldr Nat.mul 1 dims.

Record ndarray (A : Type) := NDArray { shape : list nat; data : list A }.
Arguments NDArray {A} shape data.
Arguments shape {A} _.
Arguments data {A} _.

Section Arrays.
Context {A : Type}.
Implicit Types a v : ndarray A.

Definition size a : nat := prod (shape a).
Definition ndim a : nat := length (shape a).


(** [np.zeros(shape)], for the zero of the entry type. *)
Definition zeros (zero : A) (sh : list nat) : ndarray A :=
  NDArray sh (replicate (prod sh) zero).

(** The first [m] consecutive blocks of [k] entries. *)
Fixpoint chunks (k m : nat) (l : list A) : list (list A) :=
  match m with
  | 0 => []
  | S m' => take k l :: chunks k m' (drop k l)
  end.

(** [a.reshape(-1, *dims)].  numpy infers the leading dimension from the
    size; it refuses when the known dimensions multiply to zero or do
    not divide the size. *)
Definition reshape_infer a (dims : list nat) : result (ndarray A) :=
  let s_known := prod dims in
  if (s_known =? 0) || negb (size a `mod` s_known =? 0)
  then Raise ValueError
  else Ok (NDArray (size a `div` s_known :: dims) (data a)).

(** [a.shape[0]] *)
Definition shape0 a : result nat :=
  match shape a with
  | d0 :: _ => Ok d0
  | [] => Raise IndexError
  end.

(** [a[i]] for an index [0 <= i]. *)
Definition item (i : nat) a : ndarray A :=
  let c := prod (tail (shape a)) in
  NDArray (tail (shape a)) (take c (drop (i * c) (data a))).

Definition getitem a (i : nat) : result (ndarray A) :=
  match shape a with
  | d0 :: _ => if i <? d0 then Ok (item i a) else Raise IndexError
  | [] => Raise IndexError
  end.

(** [a[:, i]] *)
Definition getitem_col a (i : nat) : result (ndarray A) :=
  match shape a with
  | d0 :: d1 :: rest =>
      let c := prod rest in
      if i <? d1
      then Ok (NDArray (d0 :: rest)
                 (concat ((λ blk, take c (drop (i * c) blk))
                            <$> chunks (d1 * c) d0 (data a))))
      else Raise IndexError
  | _ => Raise IndexError
  end.

(** [a[row, j]] *)
Definition getitem2 a (row j : nat) : result (ndarray A) :=
  match shape a with
  | d0 :: d1 :: rest =>
      let c := prod rest in
      if (row <? d0) && (j <? d1)
      then Ok (NDArray rest (take c (drop ((row * d1 + j) * c) (data a))))
      else Raise IndexError
  | _ => Raise IndexError
  end.

(** [a[:, :k]] *)
Definition getitem_cols_to a (k : nat) : result (ndarray A) :=
  match shape a with
  | d0 :: d1 :: rest =>
      let c := prod rest in
      Ok (NDArray (d0 :: k `min` d1 :: rest)
            (concat (take (k * c) <$> chunks (d1 * c) d0 (data a))))
  | _ => Raise IndexError
  end.

(** [a[:, k:]] *)
Definition getitem_cols_from a (k : nat) : result (ndarray A) :=
  match shape a with
  | d0 :: d1 :: rest =>
      let c := prod rest in
      Ok (NDArray (d0 :: d1 - k :: rest)
            (concat (drop (k * c) <$> chunks (d1 * c) d0 (data a))))
  | _ => Raise IndexError
  end.

(** Assignment into a one-dimensional target of [c] entries first strips
    unit dimensions from the left of the value while it has more
    dimensions than the target, then broadcasts. *)
Fixpoint strip_leading_ones (sh : list nat) : list nat :=
  match sh with
  | 1 :: (_ :: _) as sh' => strip_leading_ones sh'
  | _ => sh
  end.

Definition broadcast_row (c : nat) v : result (list A) :=
  match strip_leading_ones (shape v) with
  | [] => Ok (concat (replicate c (take 1 (data v))))
  | [k] =>
      if k =? c then Ok (take c (data v))
      else if k =? 1 then Ok (concat (replicate c (take 1 (data v))))
      else Raise ValueError
  | _ => Raise ValueError
  end.

(** [a[row, :] = v] for a two-dimensional [a] and [row] in range. *)
Definition setitem_row a (row : nat) v : result (ndarray A) :=
  match shape a with
  | [d0; d1] =>
      if row <? d0 then
        vs ← broadcast_row d1 v;
        Ok (NDArray (shape a)
              (take (row * d1) (data a) ++ vs ++ drop (S row * d1) (data a)))
      else Raise IndexError
  | _ => Raise IndexError
  end.

(** [[v] * n]: the list of [n] copies of [v]. *)
Definition list_repeat v (n : nat) : ndarray A :=
  NDArray (n :: shape v) (concat (replicate n (data v))).

End Arrays.

(** [np.real] of an array of complex numbers, kept as pairs. *)
Definition real {A : Type} (z : ndarray (A * A)) : ndarray A :=
  NDArray (shape z) (fst <$> data z).

(** [np.all] of a list of booleans. *)
Definition all (bs : list bool) : bool := forallb id bs.

End np.

(** ** Operators and the opflow engine *)

(** A [qiskit.circuit.Parameter] is identified by its name. *)
Definition Param : Type := string.

(** The classes an operator object can have: [ListOp] and its strict
    subclasses, which hold an operator list, and the classes that hold
    none. *)
Inductive list_class := ListOp | SummedOp | ComposedOp | TensoredOp.
Inductive leaf_class := PrimitiveOp | StateFn.
Inductive op_class :=
| ListClass (c : list_class)
| LeafClass (c : leaf_class).

#[global] Instance list_class_eq_dec : EqDecision list_class.
Proof. solve_decision. Defined.
#[global] Instance leaf_class_eq_dec : EqDecision leaf_class.
Proof. solve_decision. Defined.
#[global] Instance op_class_eq_dec : EqDecision op_class.
Proof. solve_decision. Defined.

(** [issubclass(cls, ListOp)] *)
Definition issubclass_ListOp (cls : op_class) : bool :=
  match cls with
  | ListClass _ => true
  | LeafClass _ => false
  end.

Section Model.
(** Entries of real arrays (numpy's float64) with their zero.  The module
    never computes with them: it only moves them around. *)
Context {F : Type} (zero : F).
(** What the engine keeps inside an operator that holds no operator
    list, and the engine's own objects. *)
Context {Leaf Backend QuantumInstance CircuitSampler : Type}.

(** Values bound to a parameter: [tolist()] of an array, kept as the
    array it lists (a number has shape [()], a list of [n] numbers shape
    [(n,)]). *)
#[local] Abbreviation param_dict := (gmap Param (np.ndarray F)).

(** An operator object: its class ([type(op)]) and, for [ListOp] and its
    subclasses, the attributes [combo_fn] and [oplist]. *)
Inductive OperatorBase :=
| LeafOp (cls : leaf_class) (payload : Leaf)
| ListLike (cls : list_class)
    (combo_fn : np.ndarray F → string + np.ndarray F)
    (oplist : list OperatorBase).

Definition type (op : OperatorBase) : op_class :=
  match op with
  | LeafOp cls _ => LeafClass cls
  | ListLike cls _ _ => ListClass cls
  end.

Definition isinstance_ListOp (op : OperatorBase) : bool :=
  issubclass_ListOp (type op).

(** [ExpectationBase] and [Gradient] objects, by their [convert]. *)
Record ExpectationBase := {
  exp_convert : OperatorBase → string + OperatorBase
}.
Record Gradient := {
  grad_convert : OperatorBase → list Param → string + OperatorBase
}.

(** The collaborator: what the module calls in opflow and qiskit.  An
    operator is never changed by binding or evaluating it; a sampler
    keeps a cache, so converting returns the sampler as it is left. *)
Class Opflow := {
  bind_parameters : OperatorBase → param_dict → string + OperatorBase;
  eval : OperatorBase → string + np.ndarray (F * F);
  sampler_convert :
    CircuitSampler → OperatorBase → param_dict →
    (string + OperatorBase) * CircuitSampler;
  new_QuantumInstance : Backend → string + QuantumInstance;
  new_CircuitSampler : QuantumInstance → bool → string + CircuitSampler;
  backend : QuantumInstance → Backend;
  is_aer_provider : Backend → bool;
  deepcopy : CircuitSampler → CircuitSampler;
  new_Gradient : Gradient
}.
Context `{!Opflow}.

(** The [quantum_instance] argument of the constructor. *)
Inductive quantum_instance_arg :=
| AQuantumInstance (qi : QuantumInstance)
| ABackend (b : Backend).

(** The network object.  [num_inputs], [num_weights] and [output_shape]
    are the attributes of the [NeuralNetwork] base class. *)
Record OpflowQNN := {
  operator : OperatorBase;
  input_params : list Param;
  weight_params : list Param;
  exp_val : option ExpectationBase;
  gradient : Gradient;
  _quantum_instance : option QuantumInstance;
  _circuit_sampler : option CircuitSampler;
  _gradient_sampler : option CircuitSampler;
  forward_operator : OperatorBase;
  gradient_operator : OperatorBase;
  num_inputs : nat;
  num_weights : nat;
  output_shape : list nat
}.

Definition set_circuit_sampler (self : OpflowQNN)
    (s : option CircuitSampler) : OpflowQNN :=
  {| operator := operator self; input_params := input_params self;
     weight_params := weight_params self; exp_val := exp_val self;
     gradient := gradient self;
     _quantum_instance := _quantum_instance self;
     _circuit_sampler := s;
     _gradient_sampler := _gradient_sampler self;
     forward_operator := forward_operator self;
     gradient_operator := gradient_operator self;
     num_inputs := num_inputs self; num_weights := num_weights self;
     output_shape := output_shape self |}.

Definition set_gradient_sampler (self : OpflowQNN)
    (s : option CircuitSampler) : OpflowQNN :=
  {| operator := operator self; input_params := input_params self;
     weight_params := weight_params self; exp_val := exp_val self;
     gradient := gradient self;
     _quantum_instance := _quantum_instance self;
     _circuit_sampler := _circuit_sampler self;
     _gradient_sampler := s;
     forward_operator := forward_operator self;
     gradient_operator := gradient_operator self;
     num_inputs := num_inputs self; num_weights := num_weights self;
     output_shape := output_shape self |}.

(** *** Output shape *)

Definition shape_mismatch : exn :=
  QiskitMachineLearningError
    "Only supports ListOps with children that return the same shape.".

Definition shape_eqb (s1 s2 : list nat) : bool := bool_decide (s1 = s2).

(** The placeholder handed to [combo_fn] for [n] children of shape
    [shape0]. *)
Definition placeholder (n : nat) (shape0 : list nat) : np.ndarray F :=
  if shape_eqb shape0 [1]
  then np.zeros zero [n]
  else np.zeros zero (n :: shape0).

(** What follows the loop over the children, given their shapes. *)
Definition combine_shapes
    (combo_fn : np.ndarray F → string + np.ndarray F)
    (n : nat) (shapes : list (list nat)) : result (list nat) :=
  match shapes with
  | [] => Raise IndexError
  | shape0 :: _ =>
      if negb (np.all ((λ shape, shape_eqb shape shape0) <$> shapes))
      then Raise shape_mismatch
      else out ← call (combo_fn (placeholder n shape0)); Ok (np.shape out)
  end.

Fixpoint _get_output_shape_from_op (op : OperatorBase)
    : result (list nat) :=
  match op with
  | ListLike cls combo_fn oplist =>
      if bool_decide (cls = ListOp) then
        shapes ← (fix loop (ops : list OperatorBase) :=
                    match ops with
                    | [] => Ok []
                    | op_ :: ops' =>
                        shape_ ← _get_output_shape_from_op op_;
                        shapes ← loop ops';
                        Ok (shape_ :: shapes)
                    end) oplist;
        combine_shapes combo_fn (length oplist) shapes
      else Ok [1]
  | LeafOp _ _ => Ok [1]
  end.

(** The loop over [op.oplist], by itself. *)
Fixpoint child_shapes (ops : list OperatorBase)
    : result (list (list nat)) :=
  match ops with
  | [] => Ok []
  | op_ :: ops' =>
      shape_ ← _get_output_shape_from_op op_;
      shapes ← child_shapes ops';
      Ok (shape_ :: shapes)
  end.

(** *** Construction *)

(** Modelled from the spec: the constructor of the [NeuralNetwork] base
    class, which this file does not hold.  It keeps the input count, the
    weight count and the output shape as the attributes [num_inputs],
    [num_weights] and [output_shape], fixed from then on. *)
Definition NeuralNetwork_init (num_inputs num_weights : nat)
    (output_shape : list nat) : nat * nat * list nat :=
  (num_inputs, num_weights, output_shape).

(** The quantum instance and the two samplers. *)
Definition make_samplers (quantum_instance : option quantum_instance_arg)
    : result (option QuantumInstance *
              option CircuitSampler * option CircuitSampler) :=
  quantum_instance ←
    match quantum_instance with
    | Some (ABackend b) => Some <$> call (new_QuantumInstance b)
    | Some (AQuantumInstance qi) => Ok (Some qi)
    | None => Ok None
    end;
  match quantum_instance with
  | Some qi =>
      sampler ← call (new_CircuitSampler qi (is_aer_provider (backend qi)));
      Ok (Some qi, Some sampler, Some (deepcopy sampler))
  | None => Ok (None, None, None)
  end.

Definition __init__ (operator : OperatorBase)
    (input_params weight_params : option (list Param))
    (exp_val : option ExpectationBase) (gradient : option Gradient)
    (quantum_instance : option quantum_instance_arg) : result OpflowQNN :=
  let input_params := default [] input_params in
  let weight_params := default [] weight_params in
  let gradient := default new_Gradient gradient in
  '(qi, circuit_sampler, gradient_sampler) ←
    make_samplers quantum_instance;
  forward_operator ←
    match exp_val with
    | Some ev => call (exp_convert ev operator)
    | None => Ok operator
    end;
  gradient_operator ←
    call (grad_convert gradient operator (input_params ++ weight_params));
  output_shape ← _get_output_shape_from_op operator;
  let '(num_inputs, num_weights, output_shape) :=
    NeuralNetwork_init (length input_params) (length weight_params)
      output_shape in
  Ok {| operator := operator; input_params := input_params;
        weight_params := weight_params; exp_val := exp_val;
        gradient := gradient; _quantum_instance := qi;
        _circuit_sampler := circuit_sampler;
        _gradient_sampler := gradient_sampler;
        forward_operator := forward_operator;
        gradient_operator := gradient_operator;
        num_inputs := num_inputs; num_weights := num_weights;
        output_shape := output_shape |}.

(** *** Parameter dictionaries *)

(** Subscripting and attribute access on an optional array: [None] is
    not subscriptable and has no attribute [shape]. *)
Definition subscriptable (o : option (np.ndarray F))
    : result (np.ndarray F) :=
  match o with
  | Some a => Ok a
  | None => Raise TypeError
  end.

Definition with_shape (o : option (np.ndarray F))
    : result (np.ndarray F) :=
  match o with
  | Some a => Ok a
  | None => Raise AttributeError
  end.

(** [{p: value(i) for i, p in enumerate(params)}], counting from [i]:
    a later occurrence of a parameter replaces an earlier one. *)
Fixpoint dict_comprehension (value : nat → result (np.ndarray F))
    (i : nat) (params : list Param) (acc : param_dict)
    : result param_dict :=
  match params with
  | [] => Ok acc
  | p :: params' =>
      v ← value i;
      dict_comprehension value (S i) params' (<[p := v]> acc)
  end.

(** [d.update(d')] *)
Definition update (d d' : param_dict) : param_dict := d' ∪ d.

(** The dictionary of [_forward] and [_backward_batch]: the i-th column
    of the input for the i-th input parameter, and the i-th weight once
    per row for the i-th weight parameter. *)
Definition batch_param_values (self : OpflowQNN)
    (input_data weights : option (np.ndarray F)) : result param_dict :=
  param_values ←
    dict_comprehension
      (λ i, x ← subscriptable input_data; np.getitem_col x i)
      0 (input_params self) ∅;
  weight_values ←
    dict_comprehension
      (λ i, w ← subscriptable weights;
            wi ← np.getitem w i;
            x ← with_shape input_data;
            n ← np.shape0 x;
            Ok (np.list_repeat wi n))
      0 (weight_params self) ∅;
  Ok (update param_values weight_values).

(** The dictionary of one row in [_backward]. *)
Definition row_param_values (self : OpflowQNN)
    (input_data weights : option (np.ndarray F)) (row : nat)
    : result param_dict :=
  param_values ←
    dict_comprehension
      (λ j, x ← subscriptable input_data; np.getitem2 x row j)
      0 (input_params self) ∅;
  weight_values ←
    dict_comprehension
      (λ j, w ← subscriptable weights; np.getitem w j)
      0 (weight_params self) ∅;
  Ok (update param_values weight_values).

(** *** Evaluation *)

(** Lines 106-112: through the sampler when there is one, else by
    binding the parameters; the sampler is returned as it is left. *)
Definition evaluate_forward (sampler : option CircuitSampler)
    (forward_operator : OperatorBase) (param_values : param_dict)
    : result (np.ndarray F) * option CircuitSampler :=
  match sampler with
  | Some s =>
      let '(op, s') := sampler_convert s forward_operator param_values in
      (op ← call op; z ← call (eval op); Ok (np.real z), Some s')
  | None =>
      (op ← call (bind_parameters forward_operator param_values);
       z ← call (eval op); Ok (np.real z), None)
  end.

(** Lines 125-133 and 155-162: as above, and the converted gradient has
    the parameters bound once more. *)
Definition evaluate_gradient (sampler : option CircuitSampler)
    (gradient_operator : OperatorBase) (param_values : param_dict)
    : result (np.ndarray F) * option CircuitSampler :=
  match sampler with
  | Some s =>
      let '(grad, s') :=
        sampler_convert s gradient_operator param_values in
      (grad ← call grad;
       grad ← call (bind_parameters grad param_values);
       z ← call (eval grad); Ok (np.real z), Some s')
  | None =>
      (grad ← call (bind_parameters gradient_operator param_values);
       z ← call (eval grad); Ok (np.real z), None)
  end.

Definition _forward (self : OpflowQNN)
    (input_data weights : option (np.ndarray F))
    : result (np.ndarray F) * OpflowQNN :=
  match batch_param_values self input_data weights with
  | Raise e => (Raise e, self)
  | Ok param_values =>
      let '(result, s') :=
        evaluate_forward (_circuit_sampler self) (forward_operator self)
          param_values in
      (result ← result; np.reshape_infer result (output_shape self),
       set_circuit_sampler self s')
  end.

(** Lines 136-140 and 166-170: split into input and weight gradients. *)
Definition split_gradients (self : OpflowQNN) (grad : np.ndarray F)
    : result (np.ndarray F * np.ndarray F) :=
  input_cols ← np.getitem_cols_to grad (num_inputs self);
  input_grad ←
    np.reshape_infer input_cols (output_shape self ++ [num_inputs self]);
  weight_cols ← np.getitem_cols_from grad (num_inputs self);
  weights_grad ←
    np.reshape_infer weight_cols (output_shape self ++ [num_weights self]);
  Ok (input_grad, weights_grad).

Definition _backward_batch (self : OpflowQNN)
    (input_data weights : option (np.ndarray F))
    : result (np.ndarray F * np.ndarray F) * OpflowQNN :=
  match batch_param_values self input_data weights with
  | Raise e => (Raise e, self)
  | Ok param_values =>
      let '(grad, s') :=
        evaluate_gradient (_gradient_sampler self)
          (gradient_operator self) param_values in
      (grad ← grad; split_gradients self grad,
       set_gradient_sampler self s')
  end.

(** The loop of [_backward] over the rows still to do. *)
Fixpoint backward_rows (self : OpflowQNN)
    (input_data weights : option (np.ndarray F)) (rows : list nat)
    (grad_all : np.ndarray F) (sampler : option CircuitSampler)
    : result (np.ndarray F) * option CircuitSampler :=
  match rows with
  | [] => (Ok grad_all, sampler)
  | row :: rows' =>
      match row_param_values self input_data weights row with
      | Raise e => (Raise e, sampler)
      | Ok param_values =>
          let '(grad, s') :=
            evaluate_gradient sampler (gradient_operator self)
              param_values in
          match grad ≫= np.setitem_row grad_all row with
          | Raise e => (Raise e, s')
          | Ok grad_all' =>
              backward_rows self input_data weights rows' grad_all' s'
          end
      end
  end.

Definition _backward (self : OpflowQNN)
    (input_data weights : option (np.ndarray F))
    : result (np.ndarray F * np.ndarray F) * OpflowQNN :=
  match with_shape input_data ≫= np.shape0 with
  | Raise e => (Raise e, self)
  | Ok n =>
      let grad_all :=
        np.zeros zero
          [n; length (input_params self) + length (weight_params self)] in
      let '(grad_all, s') :=
        backward_rows self input_data weights (seq 0 n) grad_all
          (_gradient_sampler self) in
      (grad_all ← grad_all; split_gradients self grad_all,
       set_gradient_sampler self s')
  end.

(** *** Vocabulary of the specification *)

(** The shapes in a list are all the same. *)
Definition all_equal (shapes : list (list nat)) : Prop :=
  ∀ s1 s2, s1 ∈ shapes → s2 ∈ shapes → s1 = s2.

(** Shape inference reaches a [ListOp] whose children all have a shape,
    and these shapes differ: either at the operator itself, or below a
    child that is visited after children that all have a shape. *)
Inductive encounters_mismatch : OperatorBase → Prop :=
| mismatch_here combo_fn oplist shapes :
    child_shapes oplist = Ok shapes → ¬ all_equal shapes →
    encounters_mismatch (ListLike ListOp combo_fn oplist)
| mismatch_below combo_fn before op_ after shapes :
    child_shapes before = Ok shapes → encounters_mismatch op_ →
    encounters_mismatch (ListLike ListOp combo_fn (before ++ op_ :: after)).

(** What the constructor computes before it infers the output shape. *)
Definition conversions_succeed (operator : OperatorBase)
    (input_params weight_params : option (list Param))
    (exp_val : option ExpectationBase)
    (gradient : option Gradient)
    (quantum_instance : option quantum_instance_arg) : Prop :=
  is_Ok (make_samplers quantum_instance) = true ∧
  is_Ok (match exp_val with
         | Some ev => call (exp_convert ev operator)
         | None => Ok operator
         end) = true ∧
  is_Ok (call (grad_convert (default new_Gradient gradient) operator
                 (default [] input_params ++ default [] weight_params)))
    = true.



(** [ListOp]s nested to equal widths: [nested [k1; ...; kd] op] holds [k1]
    copies of [nested [k2; ...; kd] op], down to [op].  The combination
    function is the identity, the default of a [ListOp]. *)
Fixpoint nested (widths : list nat) (op : OperatorBase) : OperatorBase :=
  match widths with
  | [] => op
  | k :: widths' => ListLike ListOp inr (replicate k (nested widths' op))
  end.

(** The widths up to the last one that is not 1. *)
Definition without_trailing_ones (widths : list nat) : list nat :=
  foldr (λ k acc, if bool_decide (k = 1) && bool_decide (acc = [])
                  then [] else k :: acc) [] widths.

Definition nested_shape (widths : list nat) : list nat :=
  match without_trailing_ones widths with
  | [] => [1]
  | s => s
  end.

End Model.

Arguments OperatorBase : clear implicits.
Arguments ExpectationBase : clear implicits.
Arguments Gradient : clear implicits.
Arguments Opflow : clear implicits.
Arguments OpflowQNN : clear implicits.
Arguments quantum_instance_arg : clear implicits.

(** ** A small engine to run the model on

    Scalars are integers.  The only expressions are the sum of the squares
    of some parameters and its gradient; binding records the values, and
    evaluating a bound expression gives one result per batch row when the
    values are lists, a single result when they are numbers. *)
Module toy.

Inductive expr :=
| Squares (params : list Param)
| DSquares (params wrt : list Param).

Record leaf := Leaf { expression : expr; binding : option (gmap Param (np.ndarray Z)) }.

Definition Op : Type := OperatorBase Z leaf.

(** The number of rows bound, if the values are lists. *)
Definition batch_size (d : gmap Param (np.ndarray Z)) : option nat :=
  match map_to_list d with
  | (_, v) :: _ =>
      match np.shape v with
      | n :: _ => Some n
      | [] => None
      end
  | [] => None
  end.

(** The value of [p], in row [row] of a batch. *)
Definition value_at (d : gmap Param (np.ndarray Z)) (row : nat) (p : Param) : Z :=
  match d !! p with
  | Some v => default 0%Z (np.data v !! row)
  | None => 0%Z
  end.

Definition eval_row (e : expr) (d : gmap Param (np.ndarray Z)) (row : nat)
    : list Z :=
  match e with
  | Squares ps =>
      [foldr (λ p acc, (value_at d row p * value_at d row p + acc)%Z) 0%Z ps]
  | DSquares ps wrt =>
      (λ q, if bool_decide (q ∈ ps) then (2 * value_at d row q)%Z else 0%Z)
        <$> wrt
  end.

Definition row_shape (e : expr) : list nat :=
  match e with
  | Squares _ => []
  | DSquares _ wrt => [length wrt]
  end.

Definition evaluate (op : Op) : string + np.ndarray (Z * Z) :=
  match op with
  | LeafOp _ (Leaf e (Some d)) =>
      let entries :=
        match batch_size d with
        | Some n =>
            np.NDArray (n :: row_shape e)
              (concat (eval_row e d <$> seq 0 n))
        | None => np.NDArray (row_shape e) (eval_row e d 0)
        end in
      inr (np.NDArray (np.shape entries) ((λ x, (x, 0%Z)) <$> np.data entries))
  | LeafOp _ (Leaf _ None) => inl "unbound parameters"
  | ListLike _ _ _ => inl "operator lists are not evaluated"
  end.

Definition bind (op : Op) (d : gmap Param (np.ndarray Z))
    : string + Op :=
  match op with
  | LeafOp cls (Leaf e b) => inr (LeafOp cls (Leaf e (Some (default ∅ b ∪ d))))
  | ListLike _ _ _ => inl "operator lists are not bound"
  end.

(** The gradient of a list of operators is the list of their gradients. *)
Fixpoint convert_gradient (op : Op) (wrt : list Param) : string + Op :=
  match op with
  | LeafOp cls (Leaf (Squares ps) None) =>
      inr (LeafOp cls (Leaf (DSquares ps wrt) None))
  | LeafOp _ _ => inl "cannot differentiate"
  | ListLike cls combo_fn oplist =>
      match
        (fix each (ops : list Op) : string + list Op :=
           match ops with
           | [] => inr []
           | op_ :: ops' =>
               match convert_gradient op_ wrt, each ops' with
               | inr g, inr gs => inr (g :: gs)
               | inl msg, _ | _, inl msg => inl msg
               end
           end) oplist
      with
      | inr gs => inr (ListLike cls combo_fn gs)
      | inl msg => inl msg
      end
  end.

(** A backend is a number, a quantum instance its backend, and a sampler
    the number of conversions it has cached. *)
#[global] Instance engine : Opflow Z leaf nat nat nat := {|
  bind_parameters := bind;
  eval := evaluate;
  sampler_convert s op d := (bind op d, S s);
  new_QuantumInstance b := inr b;
  new_CircuitSampler qi param_qobj := inr 0;
  backend qi := qi;
  is_aer_provider b := b =? 0;
  deepcopy s := s;
  new_Gradient := {| grad_convert := convert_gradient |}
|}.

Definition array1 (xs : list Z) : np.ndarray Z := np.NDArray [length xs] xs.
Definition array2 (n c : nat) (xs : list Z) : np.ndarray Z :=
  np.NDArray [n; c] xs.

(** x² + θ² with input x and weight θ. *)
Definition observable : Op := LeafOp PrimitiveOp (Leaf (Squares ["x"; "theta"]) None).

Definition network (input_params weight_params : list Param)
    (quantum_instance : option (quantum_instance_arg nat nat))
    : result (OpflowQNN Z leaf nat nat) :=
  __init__ 0%Z observable (Some input_params) (Some weight_params) None None
    quantum_instance.

(** The network that [network] constructs; [qi] is the backend of its
    quantum instance, if it has one. *)
Definition net (input_params weight_params : list Param) (qi : option nat)
    : OpflowQNN Z leaf nat nat :=
  {| operator := observable;
     input_params := input_params;
     weight_params := weight_params;
     exp_val := None;
     gradient := new_Gradient;
     _quantum_instance := qi;
     _circuit_sampler := (λ _, 0) <$> qi;
     _gradient_sampler := (λ _, 0) <$> qi;
     forward_operator := observable;
     gradient_operator :=
       LeafOp PrimitiveOp
         (Leaf (DSquares ["x"; "theta"] (input_params ++ weight_params))
            None);
     num_inputs := length input_params;
     num_weights := length weight_params;
     output_shape := [1] |}.

(** Two observables side by side, and next to a single one. *)
Definition pair_of (op1 op2 : Op) : Op := ListLike ListOp inr [op1; op2].
Definition uneven : Op := pair_of observable (pair_of observable observable).

(** A gradient converter that differentiates with respect to every
    parameter twice over, and the network constructed with it. *)
Definition twice : Gradient Z leaf :=
  {| grad_convert op wrt := convert_gradient op (wrt ++ wrt) |}.

Definition net_twice : OpflowQNN Z leaf nat nat :=
  {| operator := observable;
     input_params := ["x"];
     weight_params := ["theta"];
     exp_val := None;
     gradient := twice;
     _quantum_instance := None;
     _circuit_sampler := None;
     _gradient_sampler := None;
     forward_operator := observable;
     gradient_operator :=
       LeafOp PrimitiveOp
         (Leaf (DSquares ["x"; "theta"] ["x"; "theta"; "x"; "theta"]) None);
     num_inputs := 1;
     num_weights := 1;
     output_shape := [1] |}.

End toy.

(** * Properties *)

(** ** Facts about arrays *)

Section ArrayFacts.
Context {A : Type}.
Implicit Types (a : np.ndarray A) (l : list A) (ls : list (list A)).

Lemma prod_app (d1 d2 : list nat) :
  np.prod (d1 ++ d2) = np.prod d1 * np.prod d2.
Proof.
  induction d1 as [|d d1 IH]; simpl; [lia|].
  unfold np.prod in *. simpl. rewrite IH. lia.
Qed.

Lemma reshape_infer_Ok a (n : nat) (dims : list nat) :
  np.size a = n * np.prod dims → 0 < np.prod dims →
  np.reshape_infer a dims = Ok (np.NDArray (n :: dims) (np.data a)).
Proof.
  intros Hsize Hpos. unfold np.reshape_infer. rewrite Hsize.
  rewrite Nat.Div0.mod_mul, Nat.div_mul by lia.
  destruct (np.prod dims =? 0) eqn:E; [apply Nat.eqb_eq in E; lia|].
  reflexivity.
Qed.

Lemma reshape_infer_inv a (dims : list nat) b :
  np.reshape_infer a dims = Ok b →
  ∃ k, np.shape b = k :: dims ∧ np.data b = np.data a ∧
       k * np.prod dims = np.size a ∧ 0 < np.prod dims.
Proof.
  unfold np.reshape_infer.
  destruct (np.prod dims =? 0) eqn:E0; simpl; [done|].
  destruct (np.size a `mod` np.prod dims =? 0) eqn:E1; simpl; [|done].
  intros [= <-]. apply Nat.eqb_neq in E0. apply Nat.eqb_eq in E1.
  eexists; repeat split; simpl; [|lia].
  apply Nat.Div0.div_exact in E1. lia.
Qed.

Lemma length_chunks (k m : nat) l : length (np.chunks k m l) = m.
Proof. revert l. induction m; intros; simpl; [done|]. by rewrite IHm. Qed.



Lemma length_concat_uniform (m : nat) ls :
  Forall (λ b, length b = m) ls → length (concat ls) = length ls * m.
Proof.
  induction 1 as [|b ls Hb _ IH]; simpl; [done|].
  rewrite length_app, IH, Hb. lia.
Qed.




End ArrayFacts.

(** ** Facts about the model *)

Section Properties.
Context {F : Type} (zero : F).
Context {Leaf Backend QuantumInstance CircuitSampler : Type}.
Context `{!Opflow F Leaf Backend QuantumInstance CircuitSampler}.

#[local] Abbreviation Op := (OperatorBase F Leaf).
#[local] Abbreviation QNN := (OpflowQNN F Leaf QuantumInstance CircuitSampler).
#[local] Abbreviation shape_of := (_get_output_shape_from_op zero).
Implicit Types (op : Op) (oplist ops before after : list Op).
Implicit Types (combo_fn : np.ndarray F → string + np.ndarray F).
Implicit Types (self : QNN) (input_data weights : option (np.ndarray F)).
Implicit Types (x w grad : np.ndarray F).
Implicit Types (param_values pv : gmap Param (np.ndarray F)).

Lemma bind_Ok_inv {A B : Type} (m : result A) (f : A → result B) b :
  m ≫= f = Ok b → ∃ a, m = Ok a ∧ f a = Ok b.
Proof. destruct m; [eauto|done]. Qed.

Lemma call_not_mismatch {A : Type} (r : string + A) :
  call r ≠ Raise shape_mismatch.
Proof. by destruct r. Qed.

(** *** Output shape *)

Lemma OperatorBase_nested_ind (P : Op → Prop) :
  (∀ cls payload, P (LeafOp cls payload)) →
  (∀ cls combo_fn oplist, Forall P oplist → P (ListLike cls combo_fn oplist)) →
  ∀ op, P op.
Proof.
  intros Hleaf Hlist. fix IH 1. intros [cls payload|cls combo_fn oplist].
  - apply Hleaf.
  - apply Hlist. induction oplist as [|op ops IHops]; constructor.
    + apply IH.
    + apply IHops.
Qed.

Lemma shape_of_ListOp combo_fn oplist :
  shape_of (ListLike ListOp combo_fn oplist) =
  child_shapes zero oplist ≫= combine_shapes zero combo_fn (length oplist).
Proof. reflexivity. Qed.

Lemma shape_of_not_ListOp (op : Op) :
  type op ≠ ListClass ListOp → shape_of op = Ok [1].
Proof.
  destruct op as [cls payload|cls combo_fn oplist]; simpl; [done|].
  intros Hcls. destruct (bool_decide_reflect (cls = ListOp)) as [->|]; done.
Qed.

Lemma child_shapes_app (ops1 ops2 : list Op) :
  child_shapes zero (ops1 ++ ops2) =
  shapes1 ← child_shapes zero ops1;
  shapes2 ← child_shapes zero ops2;
  Ok (shapes1 ++ shapes2).
Proof.
  induction ops1 as [|op ops1 IH]; simpl.
  - by destruct (child_shapes zero ops2).
  - destruct (shape_of op); simpl; [|done]. rewrite IH.
    destruct (child_shapes zero ops1); simpl; [|done].
    by destruct (child_shapes zero ops2).
Qed.

Lemma child_shapes_Raise (ops : list Op) e :
  child_shapes zero ops = Raise e →
  ∃ before op_ after shapes,
    ops = before ++ op_ :: after ∧
    child_shapes zero before = Ok shapes ∧ shape_of op_ = Raise e.
Proof.
  induction ops as [|op ops IH]; simpl; [done|].
  destruct (shape_of op) as [s|e'] eqn:Hop; simpl.
  - destruct (child_shapes zero ops) as [ss|e'] eqn:Hops; simpl; [done|].
    intros [= ->]. destruct IH as (before & op_ & after & shapes & -> & Hb & Hr);
      [done|].
    exists (op :: before), op_, after, (s :: shapes). simpl.
    by rewrite Hop, Hb.
  - intros [= ->]. by exists [], op, ops, [].
Qed.

Lemma child_shapes_Forall (ops : list Op) s :
  Forall (λ op, shape_of op = Ok s) ops →
  child_shapes zero ops = Ok (replicate (length ops) s).
Proof.
  induction 1 as [|op ops Hop _ IH]; simpl; [done|]. by rewrite Hop, IH.
Qed.

Lemma all_shapes_equal (shape0 : list nat) (shapes : list (list nat)) :
  np.all ((λ shape, shape_eqb shape shape0) <$> shape0 :: shapes) = true ↔
  all_equal (shape0 :: shapes).
Proof.
  unfold np.all. rewrite forallb_forall. split.
  - intros Hall s1 s2 H1 H2.
    assert (∀ s, s ∈ shape0 :: shapes → s = shape0) as Heq.
    { intros s Hs. apply (bool_decide_eq_true_1 (s = shape0)).
      apply (Hall (shape_eqb s shape0)). apply list_elem_of_In.
      apply (list_elem_of_fmap_2 (λ shape, shape_eqb shape shape0)). done. }
    by rewrite (Heq s1), (Heq s2).
  - intros Hall b Hb. apply list_elem_of_In in Hb.
    apply list_elem_of_fmap in Hb as (s & -> & Hs). unfold id.
    apply bool_decide_eq_true_2. apply Hall; [done|]. by left.
Qed.

Lemma combine_shapes_mismatch combo_fn (n : nat) shapes :
  combine_shapes zero combo_fn n shapes = Raise shape_mismatch ↔
  ¬ all_equal shapes.
Proof.
  destruct shapes as [|shape0 shapes]; unfold combine_shapes.
  - split; [done|]. intros Hne. destruct Hne. intros s1 s2 Hs1.
    by apply elem_of_nil in Hs1.
  - rewrite <- all_shapes_equal.
    destruct (np.all _); simpl.
    + split; [|done]. intros Hcall. exfalso.
      destruct (combo_fn _); simpl in Hcall; done.
    + split; [by intros _ ?|done].
Qed.

Lemma combine_shapes_equal combo_fn (n : nat) shape0 shapes :
  all_equal (shape0 :: shapes) →
  combine_shapes zero combo_fn n (shape0 :: shapes) =
  (out ← call (combo_fn (placeholder zero n shape0)); Ok (np.shape out)).
Proof.
  intros Hall. unfold combine_shapes.
  by rewrite (proj2 (all_shapes_equal shape0 shapes) Hall).
Qed.

Lemma shape_mismatch_iff (op : Op) :
  shape_of op = Raise shape_mismatch ↔ encounters_mismatch zero op.
Proof.
  split.
  - induction op as [cls payload|cls combo_fn oplist IH]
      using OperatorBase_nested_ind; [done|].
    destruct (decide (cls = ListOp)) as [->|Hcls].
    + rewrite shape_of_ListOp.
      destruct (child_shapes zero oplist) as [shapes|e] eqn:Hch; simpl.
      * intros Hc. eapply mismatch_here; [done|].
        by apply (combine_shapes_mismatch combo_fn (length oplist)).
      * intros [= ->].
        apply child_shapes_Raise in Hch
          as (before & op_ & after & shapes & -> & Hb & Hr).
        eapply mismatch_below; [done|].
        rewrite Forall_app, Forall_cons in IH. by apply IH.
    + rewrite shape_of_not_ListOp; [done|]. simpl. congruence.
  - induction 1 as [combo_fn oplist shapes Hch Hne
                   |combo_fn before op_ after shapes Hb _ IH];
      rewrite shape_of_ListOp.
    + rewrite Hch. simpl. by apply combine_shapes_mismatch.
    + rewrite child_shapes_app, Hb. simpl. by rewrite IH.
Qed.

(** C7: output-shape inference gives (1,) for every operator whose type
    is not exactly [ListOp]: the operators that hold no operator list and
    the strict subclasses of [ListOp] alike, whatever they hold. *)
Theorem output_shape_unless_exactly_ListOp op :
  type op ≠ ListClass ListOp → shape_of op = Ok [1].
Proof. apply shape_of_not_ListOp. Qed.

(** C10: when every child of a [ListOp] has the shape [shape0], the
    combination function is applied to zeros of shape (number of
    children,) if [shape0] is (1,), and to zeros of shape (number of
    children, *shape0) otherwise; the output shape is the shape of what
    it returns. *)
Theorem placeholder_of_equal_children combo_fn oplist (shape0 : list nat) :
  oplist ≠ [] → Forall (λ op, shape_of op = Ok shape0) oplist →
  let ph :=
    np.zeros zero
      (if decide (shape0 = [1]) then [length oplist]
       else length oplist :: shape0) in
  shape_of (ListLike ListOp combo_fn oplist) =
    (out ← call (combo_fn ph); Ok (np.shape out)) ∧
  (shape0 = [1] → np.shape ph = [length oplist] ∧ np.ndim ph = 1) ∧
  (shape0 ≠ [1] → np.shape ph = length oplist :: shape0).
Proof.
  intros Hne Hall ph. subst ph. split.
  - rewrite shape_of_ListOp, (child_shapes_Forall _ shape0) by done.
    destruct oplist as [|op ops]; [done|]. simpl length.
    rewrite replicate_S. change (Ok ?a ≫= ?f) with (f a).
    rewrite combine_shapes_equal.
    + unfold placeholder, shape_eqb.
      destruct (decide (shape0 = [1])) as [->|Hs].
      * by rewrite bool_decide_eq_true_2.
      * by rewrite bool_decide_eq_false_2.
    + rewrite <- replicate_S. intros s1 s2 H1 H2.
      apply elem_of_replicate in H1 as [-> _].
      by apply elem_of_replicate in H2 as [-> _].
  - destruct (decide (shape0 = [1])); split; intros; done.
Qed.

(** *** Construction *)

Lemma make_samplers_not_mismatch qi :
  make_samplers qi ≠ Raise shape_mismatch.
Proof.
  unfold make_samplers.
  destruct qi as [[qi|b]|]; simpl; [| |done].
  - by destruct (new_CircuitSampler _ _).
  - destruct (new_QuantumInstance b); simpl; [done|].
    by destruct (new_CircuitSampler _ _).
Qed.

Lemma init_unfold operator ips wps ev g qi :
  conversions_succeed operator ips wps ev g qi →
  ∃ k, __init__ zero operator ips wps ev g qi = shape_of operator ≫= k ∧
       ∀ s, ∃ self, k s = Ok self ∧ output_shape self = s ∧
            num_inputs self = length (default [] ips) ∧
            num_weights self = length (default [] wps).
Proof.
  intros (Hs & Hf & Hg). unfold __init__.
  destruct (make_samplers qi) as [[[q cs] gs]|]; [|done]. simpl.
  destruct (match ev with Some _ => _ | None => _ end); [|done]. simpl.
  destruct (call _); [|done]. simpl.
  eexists. split; [reflexivity|]. intros s. simpl. eauto.
Qed.

(** C5: the constructor raises the shape-inconsistency error exactly when
    it gets as far as inferring the output shape and the inference
    reaches a [ListOp] whose children's shapes are not all equal; and
    then no network is constructed. *)
Theorem init_raises_shape_mismatch_iff operator ips wps ev g qi :
  (__init__ zero operator ips wps ev g qi = Raise shape_mismatch ↔
   conversions_succeed operator ips wps ev g qi ∧
   encounters_mismatch zero operator) ∧
  (shape_of operator = Raise shape_mismatch →
   is_Ok (__init__ zero operator ips wps ev g qi) = false).
Proof.
  split; [split|].
  - unfold __init__, conversions_succeed.
    pose proof (make_samplers_not_mismatch qi) as Hs.
    destruct (make_samplers qi) as [[[q cs] gs]|]; [|simpl; congruence].
    simpl.
    destruct ev as [ev|]; simpl.
    + destruct (exp_convert ev operator); simpl;
        [by unfold shape_mismatch|].
      destruct (grad_convert _ _ _); simpl; [by unfold shape_mismatch|].
      destruct (shape_of operator) eqn:Hsh; simpl; [done|].
      intros [= ->]. by rewrite <- shape_mismatch_iff.
    + destruct (grad_convert _ _ _); simpl; [by unfold shape_mismatch|].
      destruct (shape_of operator) eqn:Hsh; simpl; [done|].
      intros [= ->]. by rewrite <- shape_mismatch_iff.
  - intros [Hconv Hmis]. apply shape_mismatch_iff in Hmis.
    destruct (init_unfold _ _ _ _ _ _ Hconv) as (k & -> & _).
    by rewrite Hmis.
  - intros Hmis. unfold __init__.
    destruct (make_samplers qi) as [[[q cs] gs]|]; [|done]. simpl.
    destruct (match ev with Some _ => _ | None => _ end); [|done]. simpl.
    destruct (call _); [|done]. simpl. by rewrite Hmis.
Qed.

(** *** No execution context *)

Lemma set_circuit_sampler_id self :
  set_circuit_sampler self (_circuit_sampler self) = self.
Proof. by destruct self. Qed.

Lemma set_gradient_sampler_id self :
  set_gradient_sampler self (_gradient_sampler self) = self.
Proof. by destruct self. Qed.

Lemma backward_rows_None self input_data weights (rows : list nat) grad_all :
  (backward_rows self input_data weights rows grad_all None).2 = None.
Proof.
  revert grad_all. induction rows as [|row rows IH]; intros; simpl; [done|].
  destruct (row_param_values _ _ _ _); simpl; [|done].
  destruct (_ ≫= _); simpl; [apply IH|done].
Qed.

Lemma forward_state_without_sampler self input_data weights :
  _circuit_sampler self = None →
  (_forward self input_data weights).2 = self.
Proof.
  intros Hs. unfold _forward.
  destruct (batch_param_values _ _ _); [|done].
  rewrite Hs. simpl. rewrite <- Hs. apply set_circuit_sampler_id.
Qed.

Lemma backward_batch_state_without_sampler self input_data weights :
  _gradient_sampler self = None →
  (_backward_batch self input_data weights).2 = self.
Proof.
  intros Hs. unfold _backward_batch.
  destruct (batch_param_values _ _ _); [|done].
  rewrite Hs. simpl. rewrite <- Hs. apply set_gradient_sampler_id.
Qed.

Lemma backward_state_without_sampler self input_data weights :
  _gradient_sampler self = None →
  (_backward zero self input_data weights).2 = self.
Proof.
  intros Hs. unfold _backward.
  destruct (_ ≫= _) as [n|]; [|done]. rewrite Hs.
  pose proof (backward_rows_None self input_data weights (seq 0 n)
    (np.zeros zero
       [n; length (input_params self) + length (weight_params self)]))
    as Hrows.
  destruct (backward_rows _ _ _ _ _ _) as [r s']. simpl in *. subst s'.
  rewrite <- Hs. apply set_gradient_sampler_id.
Qed.

(** C9: on a network without samplers a forward or backward pass leaves
    the network as it was, and a second pass on the same input and
    weights returns what the first returned. *)
Theorem passes_deterministic_without_samplers self input_data weights :
  _circuit_sampler self = None → _gradient_sampler self = None →
  let after_forward := (_forward self input_data weights).2 in
  let after_batch := (_backward_batch self input_data weights).2 in
  let after_rows := (_backward zero self input_data weights).2 in
  (after_forward = self ∧
   (_forward after_forward input_data weights).1 =
   (_forward self input_data weights).1) ∧
  (after_batch = self ∧
   (_backward_batch after_batch input_data weights).1 =
   (_backward_batch self input_data weights).1) ∧
  (after_rows = self ∧
   (_backward zero after_rows input_data weights).1 =
   (_backward zero self input_data weights).1).
Proof.
  intros Hc Hg. simpl.
  rewrite forward_state_without_sampler,
    backward_batch_state_without_sampler,
    backward_state_without_sampler by done.
  done.
Qed.

(** *** What a constructed network holds *)

Lemma init_Ok_inv operator ips wps ev g qi self :
  __init__ zero operator ips wps ev g qi = Ok self →
  shape_of operator = Ok (output_shape self) ∧
  input_params self = default [] ips ∧
  weight_params self = default [] wps ∧
  num_inputs self = length (input_params self) ∧
  num_weights self = length (weight_params self) ∧
  gradient self = default new_Gradient g ∧
  call (grad_convert (gradient self) operator
          (input_params self ++ weight_params self))
    = Ok (gradient_operator self).
Proof.
  unfold __init__.
  destruct (make_samplers qi) as [[[q cs] gs]|]; [|done]. simpl.
  destruct (match ev with Some _ => _ | None => _ end); [|done]. simpl.
  destruct (call _) eqn:Hg; [|done]. simpl.
  destruct (shape_of operator); [|done]. simpl.
  intros [= <-]. simpl. done.
Qed.

(** *** Splitting the gradient *)

Lemma backward_batch_ends_in_split self input_data weights r :
  (_backward_batch self input_data weights).1 = Ok r →
  ∃ grad, split_gradients self grad = Ok r.
Proof.
  unfold _backward_batch.
  destruct (batch_param_values _ _ _); [|done].
  destruct (evaluate_gradient _ _ _) as [[grad|] s']; simpl; [eauto|done].
Qed.

Lemma backward_ends_in_split self input_data weights r :
  (_backward zero self input_data weights).1 = Ok r →
  ∃ grad, split_gradients self grad = Ok r.
Proof.
  unfold _backward.
  destruct (_ ≫= _) as [n|]; [|done].
  destruct (backward_rows _ _ _ _ _ _) as [[grad|] s']; simpl; [eauto|done].
Qed.

Lemma split_gradients_inv self grad ig wg :
  split_gradients self grad = Ok (ig, wg) →
  ∃ icols wcols ki kw,
    np.getitem_cols_to grad (num_inputs self) = Ok icols ∧
    np.getitem_cols_from grad (num_inputs self) = Ok wcols ∧
    np.data ig = np.data icols ∧ np.data wg = np.data wcols ∧
    np.shape ig = ki :: output_shape self ++ [num_inputs self] ∧
    np.shape wg = kw :: output_shape self ++ [num_weights self] ∧
    0 < np.prod (output_shape self) ∧
    0 < num_inputs self ∧ 0 < num_weights self.
Proof.
  unfold split_gradients. intros Hsplit.
  apply bind_Ok_inv in Hsplit as (icols & Hic & Hsplit).
  apply bind_Ok_inv in Hsplit as (ig' & Hig & Hsplit).
  apply bind_Ok_inv in Hsplit as (wcols & Hwc & Hsplit).
  apply bind_Ok_inv in Hsplit as (wg' & Hwg & [= <- <-]).
  apply reshape_infer_inv in Hig as (ki & Hig1 & Hig2 & _ & Hig3).
  apply reshape_infer_inv in Hwg as (kw & Hwg1 & Hwg2 & _ & Hwg3).
  rewrite prod_app in Hig3, Hwg3. unfold np.prod in Hig3, Hwg3 at 2.
  simpl in Hig3, Hwg3.
  exists icols, wcols, ki, kw. repeat split; try done; lia.
Qed.

Lemma split_gradients_needs_parameters self grad :
  num_inputs self = 0 ∨ num_weights self = 0 →
  is_Ok (split_gradients self grad) = false.
Proof.
  intros Hzero. destruct (split_gradients self grad) as [[ig wg]|] eqn:Hs;
    [|done].
  apply split_gradients_inv in Hs as (? & ? & ? & ? & ?). lia.
Qed.

(** A backward pass that returns has an input and a weight parameter at
    least, and the shapes of its gradients are [output_shape] between a
    leading dimension and [num_inputs], respectively [num_weights]. *)
Lemma backward_returns_only_with_parameters self input_data weights ig wg :
  (_backward zero self input_data weights).1 = Ok (ig, wg) ∨
  (_backward_batch self input_data weights).1 = Ok (ig, wg) →
  0 < num_inputs self ∧ 0 < num_weights self ∧
  ∃ ki kw,
    np.shape ig = ki :: output_shape self ++ [num_inputs self] ∧
    np.shape wg = kw :: output_shape self ++ [num_weights self].
Proof.
  intros Hret.
  assert (∃ grad, split_gradients self grad = Ok (ig, wg)) as [grad Hs].
  { destruct Hret as [Hb|Hb].
    - by eapply backward_ends_in_split.
    - by eapply backward_batch_ends_in_split. }
  apply split_gradients_inv in Hs
    as (_ & _ & ki & kw & _ & _ & _ & _ & Hig & Hwg & _ & Hp & Hw).
  eauto 10.
Qed.

(** With a weight and an input parameter at least, a gradient that holds
    one block of [output_shape] entries per row and parameter is split
    into arrays of the shapes of the interface. *)
Lemma split_gradients_shapes self grad (n : nat) (rest : list nat) :
  np.shape grad = n :: num_inputs self + num_weights self :: rest →
  np.prod rest = np.prod (output_shape self) →
  0 < np.prod (output_shape self) →
  0 < num_inputs self → 0 < num_weights self →
  ∃ ig wg, split_gradients self grad = Ok (ig, wg) ∧
    np.shape ig = n :: output_shape self ++ [num_inputs self] ∧
    np.shape wg = n :: output_shape self ++ [num_weights self].
Proof.
  intros Hshape Hrest Hout Hp Hw. unfold split_gradients.
  unfold np.getitem_cols_to, np.getitem_cols_from. rewrite Hshape.
  assert (∀ d (k : nat), np.prod (d ++ [k]) = np.prod d * k) as Hsnoc.
  { intros d k. rewrite prod_app. unfold np.prod at 2. simpl. lia. }
  simpl. rewrite !(reshape_infer_Ok _ n); simpl; eauto;
    rewrite ?Hsnoc; try lia;
    unfold np.size; simpl; unfold np.prod at 1; simpl;
    fold (np.prod rest); rewrite Hrest, ?Nat.min_l by lia; lia.
Qed.




(** *** Parameter dictionaries *)

Lemma dict_comprehension_Ok (value : nat → result (np.ndarray F))
    (i : nat) (params : list Param) acc :
  (∀ j, i ≤ j < i + length params → is_Ok (value j) = true) →
  is_Ok (dict_comprehension value i params acc) = true.
Proof.
  revert i acc. induction params as [|p params IH]; intros i acc Hv; [done|].
  simpl in *. specialize (Hv i ltac:(lia)) as Hi.
  destruct (value i) as [v|]; [|done]. simpl.
  apply IH. intros j Hj. apply Hv. lia.
Qed.


Lemma getitem_col_Ok x (n c j : nat) (rest : list nat) :
  np.shape x = n :: c :: rest → j < c → is_Ok (np.getitem_col x j) = true.
Proof.
  intros Hshape Hj. unfold np.getitem_col. rewrite Hshape.
  by rewrite (proj2 (Nat.ltb_lt j c)).
Qed.

Lemma batch_param_values_Ok self x weights (n c : nat) :
  np.shape x = [n; c] → length (input_params self) ≤ c →
  weight_params self = [] ∨
  (∃ w d, weights = Some w ∧ np.shape w = [d] ∧
          length (weight_params self) ≤ d) →
  is_Ok (batch_param_values self (Some x) weights) = true.
Proof.
  intros Hshape Hc Hw. unfold batch_param_values.
  pose proof (dict_comprehension_Ok
    (λ i, x ← subscriptable (Some x); np.getitem_col x i)
    0 (input_params self) ∅) as Hin.
  destruct (dict_comprehension _ 0 (input_params self) ∅) as [d|].
  2:{ apply Hin. intros j Hj. simpl. eapply getitem_col_Ok; [done|lia]. }
  simpl. clear Hin. destruct Hw as [->|(w & d' & -> & Hws & Hd)]; [done|].
  match goal with
  | |- context [dict_comprehension ?f 0 ?ps ∅] =>
      pose proof (dict_comprehension_Ok f 0 ps ∅) as Hwt;
      destruct (dict_comprehension f 0 ps ∅)
  end; [done|].
  apply Hwt. intros j Hj. simpl. unfold np.getitem, np.shape0.
  rewrite Hws, Hshape. by rewrite (proj2 (Nat.ltb_lt j d')) by lia.
Qed.

Lemma batch_param_values_ignores_weights self input_data weights :
  weight_params self = [] →
  batch_param_values self input_data weights =
  batch_param_values self input_data None.
Proof. intros Hw. unfold batch_param_values. by rewrite Hw. Qed.

Lemma batch_param_values_absent_input self weights :
  is_Ok (batch_param_values self None weights) = true ↔
  input_params self = [] ∧ weight_params self = [].
Proof.
  unfold batch_param_values. split.
  - destruct (input_params self) as [|p ps]; [|done]. simpl.
    destruct (weight_params self) as [|q qs]; [done|]. simpl.
    destruct weights as [w|]; simpl; [|done].
    by destruct (np.getitem w 0).
  - by intros [-> ->].
Qed.

(** *** Forward *)

Lemma forward_unfold self input_data weights pv :
  batch_param_values self input_data weights = Ok pv →
  (_forward self input_data weights).1 =
  (evaluate_forward (_circuit_sampler self) (forward_operator self) pv).1
    ≫= λ r, np.reshape_infer r (output_shape self).
Proof.
  intros Hpv. unfold _forward. rewrite Hpv.
  by destruct (evaluate_forward _ _ _).
Qed.

(** C1, as amended: on a network constructed for [p] input and [w] weight
    parameters, the forward pass of a two-dimensional batch of [n] rows
    (with a column per input parameter and an entry per weight parameter
    at least), whose evaluation yields [n] times the product of
    [output_shape] entries, this product not being zero, returns these
    entries as an array of shape (n, *output_shape), where [output_shape]
    is the shape inferred from the operator.  The leading dimension is
    inferred from the number of evaluated entries, never compared with
    [n]. *)
Theorem forward_returns_batch_of_output_shape
    operator ips wps ev g qi self x w (n c d : nat) (R : np.ndarray F) :
  __init__ zero operator ips wps ev g qi = Ok self →
  np.shape x = [n; c] → length (input_params self) ≤ c →
  np.shape w = [d] → length (weight_params self) ≤ d →
  (∀ pv, batch_param_values self (Some x) (Some w) = Ok pv →
     (evaluate_forward (_circuit_sampler self) (forward_operator self)
        pv).1 = Ok R) →
  np.size R = n * np.prod (output_shape self) →
  0 < np.prod (output_shape self) →
  shape_of operator = Ok (output_shape self) ∧
  ∃ out, (_forward self (Some x) (Some w)).1 = Ok out ∧
         np.shape out = n :: output_shape self ∧
         np.data out = np.data R.
Proof.
  intros Hinit Hx Hc Hw Hd Heval Hsize Hpos.
  split; [by apply init_Ok_inv in Hinit as (? & _)|].
  pose proof (batch_param_values_Ok self x (Some w) n c Hx Hc) as Hpv.
  destruct (batch_param_values self (Some x) (Some w)) as [pv|] eqn:Hb.
  2:{ discriminate Hpv. right. by exists w, d. }
  rewrite (forward_unfold _ _ _ pv Hb), (Heval pv eq_refl). simpl.
  rewrite (reshape_infer_Ok _ n) by done. eauto.
Qed.

(** C8, as amended: when the weight-parameter list is empty the weight
    array is never read, so it may be absent or empty, and a
    two-dimensional input with a column per input parameter (rows or
    columns possibly none) is bound; an absent input array is accepted
    exactly when both parameter lists are empty, and the forward pass is
    then the evaluation under the empty binding, reshaped. *)
Theorem binding_of_absent_arguments self input_data weights :
  (weight_params self = [] →
   batch_param_values self input_data weights =
   batch_param_values self input_data None) ∧
  (weight_params self = [] →
   ∀ x (n c : nat), np.shape x = [n; c] → length (input_params self) ≤ c →
     is_Ok (batch_param_values self (Some x) weights) = true) ∧
  (is_Ok (batch_param_values self None weights) = true ↔
   input_params self = [] ∧ weight_params self = []) ∧
  (input_params self = [] → weight_params self = [] →
   (_forward self None weights).1 =
   (evaluate_forward (_circuit_sampler self) (forward_operator self) ∅).1
     ≫= λ r, np.reshape_infer r (output_shape self)).
Proof.
  split; [apply batch_param_values_ignores_weights|].
  split; [|split; [apply batch_param_values_absent_input|]].
  - intros Hw x n c Hx Hc. eapply batch_param_values_Ok; eauto.
  - intros Hi Hw. apply forward_unfold.
    unfold batch_param_values. by rewrite Hi, Hw.
Qed.

(** *** Backward without parameters *)

(** C6: on a network constructed with an empty weight-parameter list
    neither backward pass ever returns: the weight gradient is reshaped
    to (-1, *output_shape, 0), which numpy refuses. *)
Theorem backward_never_returns_without_weights
    operator ips wps ev g qi self input_data weights :
  __init__ zero operator ips wps ev g qi = Ok self →
  default [] wps = [] →
  is_Ok (_backward zero self input_data weights).1 = false ∧
  is_Ok (_backward_batch self input_data weights).1 = false.
Proof.
  intros Hinit Hwps.
  apply init_Ok_inv in Hinit as (_ & _ & Hw & _ & Hnw & _).
  rewrite Hw, Hwps in Hnw. simpl in Hnw. split.
  - destruct (_backward zero self input_data weights).1 as [r|] eqn:Hb;
      [|done].
    apply backward_ends_in_split in Hb as [grad Hs].
    pose proof (split_gradients_needs_parameters self grad (or_intror Hnw)).
    by rewrite Hs in *.
  - destruct (_backward_batch self input_data weights).1 as [r|] eqn:Hb;
      [|done].
    apply backward_batch_ends_in_split in Hb as [grad Hs].
    pose proof (split_gradients_needs_parameters self grad (or_intror Hnw)).
    by rewrite Hs in *.
Qed.

(** *** Rows of a batch *)

Lemma prod_nil : np.prod [] = 1.
Proof. reflexivity. Qed.


Lemma prod_pair (n c : nat) : np.prod [n; c] = n * c.
Proof. unfold np.prod. simpl. lia. Qed.










End Properties.

(** ** The model at work *)

Example network_constructed ips wps :
  toy.network ips wps None = Ok (toy.net ips wps None) ∧
  toy.network ips wps (Some (ABackend 3)) = Ok (toy.net ips wps (Some 3)).
Proof. split; reflexivity. Qed.

Example forward_two_rows :
  (_forward (toy.net ["x"] ["theta"] None)
     (Some (toy.array2 2 1 [3; 5]%Z)) (Some (toy.array1 [7]%Z))).1
  = Ok (np.NDArray [2; 1] [58; 74]%Z).
Proof. vm_compute. reflexivity. Qed.

Example backward_two_rows :
  (_backward 0%Z (toy.net ["x"] ["theta"] (Some 3))
     (Some (toy.array2 2 1 [3; 5]%Z)) (Some (toy.array1 [7]%Z))).1
  = Ok (np.NDArray [2; 1; 1] [6; 10]%Z, np.NDArray [2; 1; 1] [14; 14]%Z).
Proof. vm_compute. reflexivity. Qed.

Example nested_output_shape :
  _get_output_shape_from_op 0%Z
    (toy.pair_of (toy.pair_of toy.observable toy.observable)
       (toy.pair_of toy.observable toy.observable))
  = Ok [2; 2].
Proof. vm_compute. reflexivity. Qed.

(** ** The theorems on the small engine *)

Lemma forward_returns_batch_of_output_shape_witness :
  _get_output_shape_from_op 0%Z toy.observable = Ok [1] ∧
  ∃ out,
    (_forward (toy.net ["x"] ["theta"] None)
       (Some (toy.array2 2 1 [3; 5]%Z)) (Some (toy.array1 [7]%Z))).1 = Ok out ∧
    np.shape out = [2; 1] ∧ np.data out = [58; 74]%Z.
Proof.
  apply (forward_returns_batch_of_output_shape 0%Z toy.observable
           (Some ["x"]) (Some ["theta"]) None None None
           (toy.net ["x"] ["theta"] None)
           (toy.array2 2 1 [3; 5]%Z) (toy.array1 [7]%Z) 2 1 1
           (np.NDArray [2] [58; 74]%Z)).
  - reflexivity.
  - reflexivity.
  - simpl. lia.
  - reflexivity.
  - simpl. lia.
  - intros pv Hpv. vm_compute in Hpv. injection Hpv as <-.
    vm_compute. reflexivity.
  - reflexivity.
  - vm_compute. lia.
Defined.

(** C2: with no input parameter both backward passes raise, where the
    interface promises gradients of shapes (n, *output_shape, 0) and
    (n, *output_shape, 1): the input gradient is reshaped to
    (-1, *output_shape, 0), which numpy refuses. *)
Theorem backward_without_input_parameters_raises :
  toy.network [] ["theta"] None = Ok (toy.net [] ["theta"] None) ∧
  (_backward_batch (toy.net [] ["theta"] None)
     (Some (toy.array2 2 0 [])) (Some (toy.array1 [7]%Z))).1
  = Raise ValueError ∧
  (_backward 0%Z (toy.net [] ["theta"] None)
     (Some (toy.array2 2 0 [])) (Some (toy.array1 [7]%Z))).1
  = Raise ValueError.
Proof. repeat split; vm_compute; reflexivity. Qed.



Lemma init_raises_shape_mismatch_iff_witness :
  __init__ 0%Z toy.uneven (Some ["x"]) (Some ["theta"]) None None None
    = Raise shape_mismatch ∧
  encounters_mismatch 0%Z toy.uneven.
Proof.
  assert (__init__ 0%Z toy.uneven (Some ["x"]) (Some ["theta"]) None None None
          = Raise shape_mismatch) as Hinit by (vm_compute; reflexivity).
  split; [exact Hinit|].
  exact (proj2 (proj1 (proj1 (init_raises_shape_mismatch_iff 0%Z toy.uneven
                                (Some ["x"]) (Some ["theta"]) None None None))
                  Hinit)).
Defined.

Lemma backward_never_returns_without_weights_witness :
  is_Ok (_backward 0%Z (toy.net ["x"] [] None)
           (Some (toy.array2 2 1 [3; 5]%Z)) (Some (toy.array1 []))).1 = false ∧
  is_Ok (_backward_batch (toy.net ["x"] [] None)
           (Some (toy.array2 2 1 [3; 5]%Z)) (Some (toy.array1 []))).1 = false.
Proof.
  apply (backward_never_returns_without_weights 0%Z toy.observable
           (Some ["x"]) (Some []) None None None); reflexivity.
Defined.

Example backward_without_weights_raises :
  (_backward 0%Z (toy.net ["x"] [] None)
     (Some (toy.array2 2 1 [3; 5]%Z)) (Some (toy.array1 []))).1
  = Raise ValueError ∧
  (_backward_batch (toy.net ["x"] [] None)
     (Some (toy.array2 2 1 [3; 5]%Z)) None).1
  = Raise ValueError.
Proof. split; vm_compute; reflexivity. Qed.

Lemma output_shape_unless_exactly_ListOp_witness :
  isinstance_ListOp
    (ListLike SummedOp inr [toy.observable; toy.uneven]) = true ∧
  _get_output_shape_from_op 0%Z
    (ListLike SummedOp inr [toy.observable; toy.uneven]) = Ok [1].
Proof.
  split; [reflexivity|].
  apply (output_shape_unless_exactly_ListOp 0%Z
           (ListLike SummedOp inr [toy.observable; toy.uneven])).
  simpl. discriminate.
Defined.

(** An absent input array, where the list of input parameters is empty but
    a weight parameter exists: the binding reads the batch size from the
    input and fails, though the same call with an input of two rows and no
    column succeeds. *)
Lemma absent_input_with_weight_parameter_raises :
  toy.network [] ["theta"] None = Ok (toy.net [] ["theta"] None) ∧
  input_params (toy.net [] ["theta"] None) = [] ∧
  (_forward (toy.net [] ["theta"] None) None (Some (toy.array1 [7]%Z))).1
  = Raise AttributeError ∧
  (_forward (toy.net [] ["theta"] None)
     (Some (toy.array2 2 0 [])) (Some (toy.array1 [7]%Z))).1
  = Ok (np.NDArray [2; 1] [49; 49]%Z).
Proof. repeat split; vm_compute; reflexivity. Qed.

Lemma binding_of_absent_arguments_witness :
  is_Ok (batch_param_values (toy.net [] [] None) None None) = true ∧
  (_forward (toy.net [] [] None) None None).1
  = Ok (np.NDArray [1; 1] [0%Z]).
Proof.
  destruct (binding_of_absent_arguments (toy.net [] [] None) None None)
    as (_ & _ & Habsent & Hforward).
  split.
  - apply Habsent. split; reflexivity.
  - rewrite Hforward by reflexivity. vm_compute. reflexivity.
Defined.

Lemma passes_deterministic_without_samplers_witness :
  ((_forward (toy.net ["x"] ["theta"] None)
      (Some (toy.array2 2 1 [3; 5]%Z)) (Some (toy.array1 [7]%Z))).2
   = toy.net ["x"] ["theta"] None ∧
   (_forward
      (_forward (toy.net ["x"] ["theta"] None)
         (Some (toy.array2 2 1 [3; 5]%Z)) (Some (toy.array1 [7]%Z))).2
      (Some (toy.array2 2 1 [3; 5]%Z)) (Some (toy.array1 [7]%Z))).1
   = (_forward (toy.net ["x"] ["theta"] None)
        (Some (toy.array2 2 1 [3; 5]%Z)) (Some (toy.array1 [7]%Z))).1) ∧
  ((_backward_batch (toy.net ["x"] ["theta"] None)
      (Some (toy.array2 2 1 [3; 5]%Z)) (Some (toy.array1 [7]%Z))).2
   = toy.net ["x"] ["theta"] None ∧
   (_backward_batch
      (_backward_batch (toy.net ["x"] ["theta"] None)
         (Some (toy.array2 2 1 [3; 5]%Z)) (Some (toy.array1 [7]%Z))).2
      (Some (toy.array2 2 1 [3; 5]%Z)) (Some (toy.array1 [7]%Z))).1
   = (_backward_batch (toy.net ["x"] ["theta"] None)
        (Some (toy.array2 2 1 [3; 5]%Z)) (Some (toy.array1 [7]%Z))).1) ∧
  ((_backward 0%Z (toy.net ["x"] ["theta"] None)
      (Some (toy.array2 2 1 [3; 5]%Z)) (Some (toy.array1 [7]%Z))).2
   = toy.net ["x"] ["theta"] None ∧
   (_backward 0%Z
      (_backward 0%Z (toy.net ["x"] ["theta"] None)
         (Some (toy.array2 2 1 [3; 5]%Z)) (Some (toy.array1 [7]%Z))).2
      (Some (toy.array2 2 1 [3; 5]%Z)) (Some (toy.array1 [7]%Z))).1
   = (_backward 0%Z (toy.net ["x"] ["theta"] None)
        (Some (toy.array2 2 1 [3; 5]%Z)) (Some (toy.array1 [7]%Z))).1).
Proof.
  apply (passes_deterministic_without_samplers 0%Z
           (toy.net ["x"] ["theta"] None)); reflexivity.
Defined.

Lemma placeholder_of_equal_children_witness :
  [toy.observable; toy.observable] ≠ [] ∧
  Forall (λ op, _get_output_shape_from_op 0%Z op = Ok [1])
    [toy.observable; toy.observable] ∧
  _get_output_shape_from_op 0%Z (toy.pair_of toy.observable toy.observable)
  = Ok [2].
Proof.
  assert ([toy.observable; toy.observable] ≠ []) as Hne by discriminate.
  assert (Forall (λ op, _get_output_shape_from_op 0%Z op = Ok [1])
            [toy.observable; toy.observable]) as Hall
    by (repeat constructor).
  split; [exact Hne|]. split; [exact Hall|].
  destruct (placeholder_of_equal_children 0%Z inr
              [toy.observable; toy.observable] [1] Hne Hall) as [Heq _].
  unfold toy.pair_of. rewrite Heq. reflexivity.
Defined.

(** ** Further properties of the model *)

Section Further.
Context {F : Type} (zero : F).
Context {Leaf Backend QuantumInstance CircuitSampler : Type}.
Context `{!Opflow F Leaf Backend QuantumInstance CircuitSampler}.

#[local] Abbreviation Op' := (OperatorBase F Leaf).
#[local] Abbreviation QNN' := (OpflowQNN F Leaf QuantumInstance CircuitSampler).
Implicit Types (op : Op') (oplist ops : list Op').
Implicit Types (combo_fn : np.ndarray F → string + np.ndarray F).
Implicit Types (self : QNN') (input_data weights : option (np.ndarray F)).
Implicit Types (x w grad : np.ndarray F).
Implicit Types (param_values pv : gmap Param (np.ndarray F)).

(** *** What a pass leaves of the network *)

Lemma evaluate_forward_is_Some (s : option CircuitSampler) op pv :
  is_Some (evaluate_forward s op pv).2 ↔ is_Some s.
Proof.
  destruct s as [s|]; simpl; [|done].
  destruct (sampler_convert s op pv). simpl. by rewrite !is_Some_alt.
Qed.

Lemma evaluate_gradient_is_Some (s : option CircuitSampler) op pv :
  is_Some (evaluate_gradient s op pv).2 ↔ is_Some s.
Proof.
  destruct s as [s|]; simpl; [|done].
  destruct (sampler_convert s op pv). simpl. by rewrite !is_Some_alt.
Qed.

Lemma backward_rows_is_Some self input_data weights (rows : list nat)
    grad_all (s : option CircuitSampler) :
  is_Some (backward_rows self input_data weights rows grad_all s).2 ↔
  is_Some s.
Proof.
  revert grad_all s. induction rows as [|row rows IH]; intros; simpl; [done|].
  destruct (row_param_values _ _ _ _); simpl; [|done].
  pose proof (evaluate_gradient_is_Some s (gradient_operator self) a) as He.
  destruct (evaluate_gradient _ _ _) as [g s']. simpl in He.
  destruct (_ ≫= _); simpl; [|done]. by rewrite IH.
Qed.

(** X1: a forward pass changes nothing of the network but the circuit
    sampler, a backward pass nothing but the gradient sampler, and a
    sampler that is set stays set, one that is unset stays unset. *)
Theorem pass_changes_only_its_sampler self input_data weights :
  (∃ s, (_forward self input_data weights).2 = set_circuit_sampler self s ∧
        (is_Some s ↔ is_Some (_circuit_sampler self))) ∧
  (∃ s, (_backward_batch self input_data weights).2
          = set_gradient_sampler self s ∧
        (is_Some s ↔ is_Some (_gradient_sampler self))) ∧
  (∃ s, (_backward zero self input_data weights).2
          = set_gradient_sampler self s ∧
        (is_Some s ↔ is_Some (_gradient_sampler self))).
Proof.
  split; [|split].
  - unfold _forward. destruct (batch_param_values _ _ _) as [pv|].
    + pose proof (evaluate_forward_is_Some (_circuit_sampler self)
                    (forward_operator self) pv) as He.
      destruct (evaluate_forward _ _ _) as [r s']. simpl in *. eauto.
    + exists (_circuit_sampler self). by rewrite set_circuit_sampler_id.
  - unfold _backward_batch. destruct (batch_param_values _ _ _) as [pv|].
    + pose proof (evaluate_gradient_is_Some (_gradient_sampler self)
                    (gradient_operator self) pv) as He.
      destruct (evaluate_gradient _ _ _) as [r s']. simpl in *. eauto.
    + exists (_gradient_sampler self). by rewrite set_gradient_sampler_id.
  - unfold _backward. destruct (_ ≫= _) as [n|].
    + match goal with
      | |- context [backward_rows ?a ?b ?c ?d ?e ?f] =>
          pose proof (backward_rows_is_Some a b c d e f) as He;
          destruct (backward_rows a b c d e f) as [r s']
      end.
      simpl in *. eauto.
    + exists (_gradient_sampler self). by rewrite set_gradient_sampler_id.
Qed.

(** *** What the constructor sets *)

(** X2: a constructed network holds the parameter lists it was given
    (empty when omitted) and their lengths; its forward operator is the
    operator, converted by the expectation converter when there is one;
    it has no sampler when no quantum instance is given, and otherwise a
    circuit sampler made for the quantum instance (made from the backend
    when a backend is given), with the parameterized-qobj flag set exactly
    for an Aer backend, and a deep copy of it as gradient sampler. *)
Theorem init_attributes operator ips wps ev g qi self :
  __init__ zero operator ips wps ev g qi = Ok self →
  input_params self = default [] ips ∧
  weight_params self = default [] wps ∧
  num_inputs self = length (default [] ips) ∧
  num_weights self = length (default [] wps) ∧
  match ev with
  | Some ev => exp_convert ev operator = inr (forward_operator self)
  | None => forward_operator self = operator
  end ∧
  match qi with
  | None =>
      _quantum_instance self = None ∧ _circuit_sampler self = None ∧
      _gradient_sampler self = None
  | Some arg =>
      ∃ q s,
        match arg with
        | AQuantumInstance q' => q = q'
        | ABackend b => new_QuantumInstance b = inr q
        end ∧
        new_CircuitSampler q (is_aer_provider (backend q)) = inr s ∧
        _quantum_instance self = Some q ∧ _circuit_sampler self = Some s ∧
        _gradient_sampler self = Some (deepcopy s)
  end.
Proof.
  unfold __init__, make_samplers.
  destruct qi as [[q|b]|]; simpl.
  - destruct (new_CircuitSampler q _) as [|s] eqn:Hs; simpl; [done|].
    destruct ev as [ev|]; simpl.
    + destruct (exp_convert ev operator) eqn:Hev; simpl; [done|].
      destruct (grad_convert _ _ _); simpl; [done|].
      destruct (_get_output_shape_from_op zero operator); simpl; [|done].
      intros [= <-]. simpl. repeat split; eauto 10.
    + destruct (grad_convert _ _ _); simpl; [done|].
      destruct (_get_output_shape_from_op zero operator); simpl; [|done].
      intros [= <-]. simpl. repeat split; eauto 10.
  - destruct (new_QuantumInstance b) as [|q] eqn:Hq; simpl; [done|].
    destruct (new_CircuitSampler q _) as [|s] eqn:Hs; simpl; [done|].
    destruct ev as [ev|]; simpl.
    + destruct (exp_convert ev operator) eqn:Hev; simpl; [done|].
      destruct (grad_convert _ _ _); simpl; [done|].
      destruct (_get_output_shape_from_op zero operator); simpl; [|done].
      intros [= <-]. simpl. repeat split; eauto 10.
    + destruct (grad_convert _ _ _); simpl; [done|].
      destruct (_get_output_shape_from_op zero operator); simpl; [|done].
      intros [= <-]. simpl. repeat split; eauto 10.
  - destruct ev as [ev|]; simpl.
    + destruct (exp_convert ev operator) eqn:Hev; simpl; [done|].
      destruct (grad_convert _ _ _); simpl; [done|].
      destruct (_get_output_shape_from_op zero operator); simpl; [|done].
      intros [= <-]. simpl. repeat split; eauto 10.
    + destruct (grad_convert _ _ _); simpl; [done|].
      destruct (_get_output_shape_from_op zero operator); simpl; [|done].
      intros [= <-]. simpl. repeat split; eauto 10.
Qed.

(** *** Output shapes of nested lists *)

(** X3: a network cannot be constructed on a [ListOp] without children:
    once the samplers and converters have succeeded, shape inference
    raises [IndexError] at [shapes[0]], whatever the combination
    function. *)
Theorem init_on_empty_ListOp combo_fn ips wps ev g qi :
  conversions_succeed (ListLike ListOp combo_fn []) ips wps ev g qi →
  __init__ zero (ListLike ListOp combo_fn []) ips wps ev g qi
  = Raise IndexError.
Proof.
  intros Hconv.
  destruct (init_unfold zero _ _ _ _ _ _ Hconv) as (k & -> & _). done.
Qed.

Lemma without_trailing_ones_last (widths : list nat) :
  without_trailing_ones widths ≠ [1].
Proof.
  assert (∀ ws, last (without_trailing_ones ws) ≠ Some 1) as Hlast.
  { induction ws as [|k ws IH]; simpl; [done|].
    destruct (bool_decide_reflect (k = 1)) as [->|Hk]; simpl.
    - destruct (bool_decide_reflect (without_trailing_ones ws = []))
        as [Hnil|Hne]; simpl; [done|].
      fold (without_trailing_ones ws).
      destruct (without_trailing_ones ws) as [|k' acc]; [done|]. exact IH.
    - fold (without_trailing_ones ws).
      destruct (without_trailing_ones ws) as [|k' acc]; [|exact IH].
      simpl. congruence. }
  intros Heq. specialize (Hlast widths). by rewrite Heq in Hlast.
Qed.

Lemma nested_shape_cons (k : nat) (widths : list nat) :
  nested_shape (k :: widths) =
  if shape_eqb (nested_shape widths) [1] then [k]
  else k :: nested_shape widths.
Proof.
  unfold nested_shape, shape_eqb.
  change (without_trailing_ones (k :: widths))
    with (if bool_decide (k = 1)
             && bool_decide (without_trailing_ones widths = [])
          then [] else k :: without_trailing_ones widths).
  pose proof (without_trailing_ones_last widths) as Hne.
  destruct (without_trailing_ones widths) as [|k' acc] eqn:Hw.
  - rewrite (bool_decide_eq_true_2 (@nil nat = [])) by done.
    rewrite (bool_decide_eq_true_2 ([1] = [1])) by done.
    rewrite andb_true_r.
    by destruct (bool_decide_reflect (k = 1)) as [->|].
  - rewrite (bool_decide_eq_false_2 (k' :: acc = [])) by done.
    rewrite andb_false_r. by rewrite bool_decide_eq_false_2.
Qed.

(** X4: [ListOp]s nested to the widths [k1, ..., kd] (all positive) over
    an operator that is not exactly a [ListOp], with the identity as
    combination function, have the output shape (k1, ..., kd) without its
    trailing ones, and (1,) when nothing is left: a list of one-child
    lists has the shape of a list of their children. *)
Theorem nested_lists_output_shape (widths : list nat) op :
  type op ≠ ListClass ListOp → Forall (λ k, 0 < k) widths →
  _get_output_shape_from_op zero (nested widths op)
  = Ok (nested_shape widths).
Proof.
  intros Hop Hpos. induction Hpos as [|k widths Hk _ IH].
  - by apply shape_of_not_ListOp.
  - simpl nested. rewrite shape_of_ListOp.
    rewrite (child_shapes_Forall zero _ (nested_shape widths))
      by by apply Forall_replicate.
    rewrite length_replicate. destruct k as [|k]; [lia|].
    rewrite replicate_S. change (Ok ?a ≫= ?f) with (f a).
    rewrite combine_shapes_equal.
    + rewrite nested_shape_cons. unfold placeholder, np.zeros.
      by destruct (shape_eqb (nested_shape widths) [1]).
    + rewrite <- replicate_S. intros s1 s2 H1 H2.
      apply elem_of_replicate in H1 as [-> _].
      by apply elem_of_replicate in H2 as [-> _].
Qed.

(** *** What the batch dictionary holds *)

Lemma dict_comprehension_notin (value : nat → result (np.ndarray F))
    (i : nat) (params : list Param) acc d (p : Param) :
  dict_comprehension value i params acc = Ok d →
  p ∉ params → d !! p = acc !! p.
Proof.
  revert i acc. induction params as [|q params IH]; intros i acc; simpl.
  - by intros [= ->].
  - intros Hd Hp. apply bind_Ok_inv in Hd as (v & _ & Hd).
    apply not_elem_of_cons in Hp as [Hpq Hp].
    rewrite (IH _ _ Hd Hp). by rewrite lookup_insert_ne.
Qed.

Lemma dict_comprehension_last (value : nat → result (np.ndarray F))
    (i : nat) (params : list Param) acc d (k : nat) (p : Param) :
  dict_comprehension value i params acc = Ok d →
  params !! k = Some p → (∀ j, k < j → params !! j ≠ Some p) →
  ∃ v, value (i + k) = Ok v ∧ d !! p = Some v.
Proof.
  revert i acc k. induction params as [|q params IH]; intros i acc k; simpl.
  - done.
  - intros Hd Hk Hlast. apply bind_Ok_inv in Hd as (v & Hv & Hd).
    destruct k as [|k]; simpl in Hk.
    + injection Hk as ->. exists v. rewrite Nat.add_0_r. split; [done|].
      rewrite (dict_comprehension_notin _ _ _ _ _ p Hd).
      * by rewrite lookup_insert_eq.
      * intros Hin. apply list_elem_of_lookup in Hin as [j Hj].
        by apply (Hlast (S j) ltac:(lia)).
    + destruct (IH (S i) _ k Hd Hk) as (v' & Hv' & Hp).
      * intros j Hj. apply (Hlast (S j)). lia.
      * exists v'. split; [|done]. by rewrite <- Nat.add_succ_comm.
Qed.

(** X5: in the dictionary of a batch of [n] rows every weight parameter is
    bound to its weight repeated [n] times and every input parameter that
    is not also a weight parameter to its column of the input; nothing
    else is bound.  Where a parameter is listed more than once, its last
    position counts, and a weight takes precedence over an input. *)
Theorem batch_binding_lookup self x w pv (n : nat) (rest : list nat) :
  batch_param_values self (Some x) (Some w) = Ok pv →
  np.shape x = n :: rest →
  (∀ j q, weight_params self !! j = Some q →
     (∀ j', j < j' → weight_params self !! j' ≠ Some q) →
     ∃ wj, np.getitem w j = Ok wj ∧ pv !! q = Some (np.list_repeat wj n)) ∧
  (∀ i p, input_params self !! i = Some p →
     (∀ i', i < i' → input_params self !! i' ≠ Some p) →
     p ∉ weight_params self →
     ∃ col, np.getitem_col x i = Ok col ∧ pv !! p = Some col) ∧
  (∀ p, p ∉ input_params self → p ∉ weight_params self → pv !! p = None).
Proof.
  unfold batch_param_values. intros Hb Hx.
  apply bind_Ok_inv in Hb as (ivals & Hi & Hb).
  apply bind_Ok_inv in Hb as (wvals & Hw & [= <-]).
  unfold update. split; [|split].
  - intros j q Hj Hlast.
    destruct (dict_comprehension_last _ _ _ _ _ _ _ Hw Hj Hlast)
      as (v & Hv & Hq).
    simpl in Hv. destruct (np.getitem w j) as [wj|]; [|done].
    simpl in Hv. unfold np.shape0 in Hv. rewrite Hx in Hv.
    injection Hv as <-. exists wj. split; [done|].
    by apply lookup_union_Some_l.
  - intros i p Hi' Hlast Hp.
    destruct (dict_comprehension_last _ _ _ _ _ _ _ Hi Hi' Hlast)
      as (v & Hv & Hq).
    simpl in Hv. exists v. split; [done|].
    rewrite lookup_union_r; [done|].
    by rewrite (dict_comprehension_notin _ _ _ _ _ p Hw Hp).
  - intros p Hpi Hpw. rewrite lookup_union_r.
    + by rewrite (dict_comprehension_notin _ _ _ _ _ p Hi Hpi).
    + by rewrite (dict_comprehension_notin _ _ _ _ _ p Hw Hpw).
Qed.

(** *** Arguments that do not fit the parameter lists *)

Lemma dict_comprehension_Raise (value : nat → result (np.ndarray F))
    (i : nat) (params : list Param) acc (k : nat) e :
  k < length params →
  (∀ j, j < k → is_Ok (value (i + j)) = true) →
  value (i + k) = Raise e →
  dict_comprehension value i params acc = Raise e.
Proof.
  revert i acc k. induction params as [|q params IH]; intros i acc k; simpl.
  - lia.
  - intros Hk Hok He. destruct k as [|k].
    + rewrite Nat.add_0_r in He. by rewrite He.
    + specialize (Hok 0 ltac:(lia)) as H0. rewrite Nat.add_0_r in H0.
      destruct (value i) as [v|]; [|done].
      change (Ok ?a ≫= ?f) with (f a). cbv beta.
      apply (IH (S i) _ k); [lia| |].
      * intros j Hj. rewrite Nat.add_succ_comm. apply Hok. lia.
      * by rewrite Nat.add_succ_comm.
Qed.

Lemma batch_param_values_IndexError self x weights (n c : nat) :
  np.shape x = [n; c] →
  c < length (input_params self) ∨
  (length (input_params self) ≤ c ∧
   ∃ w d, weights = Some w ∧ np.shape w = [d] ∧
          d < length (weight_params self)) →
  batch_param_values self (Some x) weights = Raise IndexError.
Proof.
  intros Hx Hfit. unfold batch_param_values.
  destruct Hfit as [Hc|(Hc & w & d & -> & Hw & Hd)].
  - assert (dict_comprehension
              (λ i, x ← subscriptable (Some x); np.getitem_col x i)
              0 (input_params self) ∅ = Raise IndexError) as ->; [|done].
    apply (dict_comprehension_Raise _ 0 _ ∅ c IndexError); [done| |].
    + intros j Hj. simpl. by eapply getitem_col_Ok.
    + simpl. unfold np.getitem_col. rewrite Hx.
      by rewrite (proj2 (Nat.ltb_ge c c)).
  - pose proof (dict_comprehension_Ok
      (λ i, x ← subscriptable (Some x); np.getitem_col x i)
      0 (input_params self) ∅) as Hin.
    destruct (dict_comprehension _ 0 (input_params self) ∅) as [ivals|].
    2:{ discriminate Hin. intros j Hj. simpl.
        eapply getitem_col_Ok; [done|lia]. }
    change (Ok ?a ≫= ?f) with (f a). cbv beta.
    match goal with
    | |- dict_comprehension ?f 0 ?ps ∅ ≫= _ = _ =>
        assert (dict_comprehension f 0 ps ∅ = Raise IndexError) as ->;
          [|done]
    end.
    apply (dict_comprehension_Raise _ 0 _ ∅ d IndexError); [done| |].
    + intros j Hj. simpl. unfold np.getitem, np.shape0. rewrite Hw, Hx.
      by rewrite (proj2 (Nat.ltb_lt j d)).
    + simpl. unfold np.getitem. rewrite Hw.
      by rewrite (proj2 (Nat.ltb_ge d d)).
Qed.

Lemma row_param_values_IndexError self x weights (n c : nat) :
  np.shape x = [n; c] → 0 < n →
  c < length (input_params self) ∨
  (length (input_params self) ≤ c ∧
   ∃ w d, weights = Some w ∧ np.shape w = [d] ∧
          d < length (weight_params self)) →
  row_param_values self (Some x) weights 0 = Raise IndexError.
Proof.
  intros Hx Hn Hfit. unfold row_param_values.
  assert (∀ j, j < c → is_Ok (np.getitem2 x 0 j) = true) as Hget.
  { intros j Hj. unfold np.getitem2. rewrite Hx.
    by rewrite (proj2 (Nat.ltb_lt 0 n)), (proj2 (Nat.ltb_lt j c)). }
  destruct Hfit as [Hc|(Hc & w & d & -> & Hw & Hd)].
  - assert (dict_comprehension
              (λ j, x ← subscriptable (Some x); np.getitem2 x 0 j)
              0 (input_params self) ∅ = Raise IndexError) as ->; [|done].
    apply (dict_comprehension_Raise _ 0 _ ∅ c IndexError); [done| |].
    + intros j Hj. simpl. by apply Hget.
    + simpl. unfold np.getitem2. rewrite Hx.
      by rewrite (proj2 (Nat.ltb_ge c c)), andb_false_r.
  - pose proof (dict_comprehension_Ok
      (λ j, x ← subscriptable (Some x); np.getitem2 x 0 j)
      0 (input_params self) ∅) as Hin.
    destruct (dict_comprehension _ 0 (input_params self) ∅) as [ivals|].
    2:{ discriminate Hin. intros j Hj. simpl. apply Hget. lia. }
    change (Ok ?a ≫= ?f) with (f a). cbv beta.
    match goal with
    | |- dict_comprehension ?f 0 ?ps ∅ ≫= _ = _ =>
        assert (dict_comprehension f 0 ps ∅ = Raise IndexError) as ->;
          [|done]
    end.
    apply (dict_comprehension_Raise _ 0 _ ∅ d IndexError); [done| |].
    + intros j Hj. simpl. unfold np.getitem. rewrite Hw.
      by rewrite (proj2 (Nat.ltb_lt j d)).
    + simpl. unfold np.getitem. rewrite Hw.
      by rewrite (proj2 (Nat.ltb_ge d d)).
Qed.

(** X6: when the two-dimensional input has fewer columns than there are
    input parameters, or the one-dimensional weights fewer entries than
    there are weight parameters, the forward and the batched backward pass
    raise [IndexError] while they build the dictionary, and so does the
    row-by-row backward pass on a batch that is not empty; the network is
    left as it was. *)
Theorem passes_raise_IndexError self x weights (n c : nat) :
  np.shape x = [n; c] →
  c < length (input_params self) ∨
  (length (input_params self) ≤ c ∧
   ∃ w d, weights = Some w ∧ np.shape w = [d] ∧
          d < length (weight_params self)) →
  _forward self (Some x) weights = (Raise IndexError, self) ∧
  _backward_batch self (Some x) weights = (Raise IndexError, self) ∧
  (0 < n → _backward zero self (Some x) weights = (Raise IndexError, self)).
Proof.
  intros Hx Hfit. split; [|split].
  - unfold _forward.
    by rewrite (batch_param_values_IndexError _ _ _ n c).
  - unfold _backward_batch.
    by rewrite (batch_param_values_IndexError _ _ _ n c).
  - intros Hn. unfold _backward. simpl. unfold np.shape0. rewrite Hx.
    change (Ok ?a ≫= ?f) with (f a). cbv beta iota.
    destruct n as [|n]; [lia|]. simpl seq. simpl backward_rows.
    rewrite (row_param_values_IndexError _ _ _ (S n) c) by done.
    by rewrite set_gradient_sampler_id.
Qed.

(** *** Edge cases of the passes *)

(** X7: on a batch without rows the row-by-row backward pass evaluates
    nothing and leaves the network as it was, whatever the weights; with
    an input and a weight parameter at least it returns gradients without
    entries, of shapes (0, *output_shape, num_inputs) and
    (0, *output_shape, num_weights). *)
Theorem backward_on_empty_batch self x weights (rest : list nat) :
  np.shape x = 0 :: rest →
  (_backward zero self (Some x) weights).2 = self ∧
  (0 < num_inputs self → 0 < num_weights self →
   0 < np.prod (output_shape self) →
   (_backward zero self (Some x) weights).1
   = Ok (np.NDArray (0 :: output_shape self ++ [num_inputs self]) [],
         np.NDArray (0 :: output_shape self ++ [num_weights self]) [])).
Proof.
  intros Hx. unfold _backward. simpl. unfold np.shape0. rewrite Hx.
  change (Ok ?a ≫= ?f) with (f a). cbv beta iota. simpl seq.
  simpl backward_rows. cbv beta iota zeta. simpl fst. simpl snd.
  split; [apply set_gradient_sampler_id|].
  intros Hp Hw Hout.
  assert (∀ d (k : nat), np.prod (d ++ [k]) = np.prod d * k) as Hsnoc.
  { intros d k. rewrite prod_app. unfold np.prod at 2. simpl. lia. }
  change (Ok ?a ≫= ?f) with (f a). cbv beta.
  unfold split_gradients, np.getitem_cols_to, np.getitem_cols_from, np.zeros.
  simpl. rewrite !(reshape_infer_Ok _ 0); simpl; try done;
    rewrite ?Hsnoc; nia.
Qed.

(** X8: once the dictionary is built and the operator evaluated, the
    forward pass returns the evaluated entries unchanged, with the leading
    dimension that makes up their number, exactly when that number is a
    multiple of the product of [output_shape] and this product is not
    zero; otherwise it raises [ValueError].  The number of rows of the
    input plays no part. *)
Theorem forward_outcome self input_data weights pv (R : np.ndarray F) :
  batch_param_values self input_data weights = Ok pv →
  (evaluate_forward (_circuit_sampler self) (forward_operator self) pv).1
    = Ok R →
  (0 < np.prod (output_shape self) →
   np.size R `mod` np.prod (output_shape self) = 0 →
   (_forward self input_data weights).1
   = Ok (np.NDArray
           (np.size R `div` np.prod (output_shape self) :: output_shape self)
           (np.data R))) ∧
  (np.prod (output_shape self) = 0 ∨
   np.size R `mod` np.prod (output_shape self) ≠ 0 →
   (_forward self input_data weights).1 = Raise ValueError).
Proof.
  intros Hpv HR. rewrite (forward_unfold _ _ _ pv Hpv), HR.
  change (Ok ?a ≫= ?f) with (f a). cbv beta. unfold np.reshape_infer.
  split.
  - intros Hpos Hmod. rewrite Hmod.
    by rewrite (proj2 (Nat.eqb_neq _ 0)) by lia.
  - intros [Hzero|Hmod].
    + by rewrite Hzero.
    + rewrite (proj2 (Nat.eqb_neq (_ `mod` _) 0)) by done.
      by rewrite orb_true_r.
Qed.

(** X9: the row-by-row backward pass stores the gradient of a row in a
    row of [num_inputs + num_weights] entries: when the first row's
    gradient has two or more dimensions and the first is not 1, or one
    dimension that is neither 1 nor the number of parameters, the pass
    raises [ValueError]. *)
Theorem backward_row_gradient_must_fit
    self x weights (n : nat) (rest : list nat) pv (g : np.ndarray F) :
  np.shape x = S n :: rest →
  row_param_values self (Some x) weights 0 = Ok pv →
  (evaluate_gradient (_gradient_sampler self) (gradient_operator self)
     pv).1 = Ok g →
  (∃ m k rest', np.shape g = m :: k :: rest' ∧ m ≠ 1) ∨
  (∃ k, np.shape g = [k] ∧ k ≠ 1 ∧
        k ≠ length (input_params self) + length (weight_params self)) →
  (_backward zero self (Some x) weights).1 = Raise ValueError.
Proof.
  intros Hx Hpv Hg Hshape. unfold _backward. simpl. unfold np.shape0.
  rewrite Hx. change (Ok ?a ≫= ?f) with (f a). cbv beta iota.
  simpl seq. simpl backward_rows. rewrite Hpv.
  destruct (evaluate_gradient _ _ _) as [r s']. simpl in Hg. subst r.
  change (Ok ?a ≫= ?f) with (f a). cbv beta.
  assert (np.setitem_row
            (np.zeros zero
               [S n; length (input_params self)
                       + length (weight_params self)]) 0 g
          = Raise ValueError) as ->; [|done].
  unfold np.setitem_row, np.zeros, np.broadcast_row. simpl np.shape.
  change (0 <? S n) with true. cbv iota.
  destruct Hshape as [(m & k & rest' & -> & Hm)|(k & -> & Hk1 & Hkc)].
  - destruct m as [|[|m]]; [done|done|done].
  - assert (np.strip_leading_ones [k] = [k]) as ->
      by by destruct k as [|[|k]].
    rewrite (proj2 (Nat.eqb_neq k _)) by done.
    by rewrite (proj2 (Nat.eqb_neq k 1)).
Qed.

(** X10: the batched backward pass slices the evaluated gradient along
    its second axis: when the gradient has fewer than two dimensions the
    pass raises [IndexError]. *)
Theorem backward_batch_needs_two_dimensions
    self input_data weights pv (g : np.ndarray F) :
  batch_param_values self input_data weights = Ok pv →
  (evaluate_gradient (_gradient_sampler self) (gradient_operator self)
     pv).1 = Ok g →
  np.ndim g < 2 →
  (_backward_batch self input_data weights).1 = Raise IndexError.
Proof.
  intros Hpv Hg Hdim. unfold _backward_batch. rewrite Hpv.
  destruct (evaluate_gradient _ _ _) as [r s']. simpl in Hg. subst r.
  cbn [fst]. change (Ok ?a ≫= ?f) with (f a). cbv beta.
  unfold split_gradients, np.getitem_cols_to. unfold np.ndim in Hdim.
  destruct (np.shape g) as [|d0 [|d1 rest]]; [done|done|simpl in Hdim; lia].
Qed.

Lemma backward_rows_shape self input_data weights (rows : list nat)
    (grad_all grad_all' : np.ndarray F) (s : option CircuitSampler) :
  (backward_rows self input_data weights rows grad_all s).1 = Ok grad_all' →
  np.shape grad_all' = np.shape grad_all.
Proof.
  revert grad_all s. induction rows as [|row rows IH]; intros ga s; simpl.
  - by intros [= ->].
  - destruct (row_param_values _ _ _ _); simpl; [|done].
    destruct (evaluate_gradient _ _ _) as [[g|] s']; simpl; [|done].
    destruct (np.setitem_row ga row g) as [ga1|] eqn:Hset; simpl; [|done].
    intros Hrows. rewrite (IH _ _ Hrows).
    unfold np.setitem_row in Hset.
    destruct (np.shape ga) as [|d0 [|d1 [|? ?]]] eqn:Hga; try done.
    destruct (row <? d0); [|done].
    destruct (np.broadcast_row d1 g); simpl in Hset; [|done].
    by injection Hset as <-.
Qed.

(** X11: when the row-by-row backward pass returns on a batch of [n] rows,
    the two gradients have the same leading dimension [k], and [k] times
    the product of [output_shape] is [n]: the leading dimension is the
    batch size only for an output shape of one entry. *)
Theorem backward_leading_dimension
    self x weights (n : nat) (rest : list nat) (ig wg : np.ndarray F) :
  np.shape x = n :: rest →
  num_inputs self = length (input_params self) →
  num_weights self = length (weight_params self) →
  (_backward zero self (Some x) weights).1 = Ok (ig, wg) →
  ∃ k, np.shape ig = k :: output_shape self ++ [num_inputs self] ∧
       np.shape wg = k :: output_shape self ++ [num_weights self] ∧
       k * np.prod (output_shape self) = n.
Proof.
  intros Hx Hp Hw. unfold _backward. simpl. unfold np.shape0. rewrite Hx.
  change (Ok ?a ≫= ?f) with (f a). cbv beta iota.
  match goal with
  | |- context [backward_rows ?a ?b ?c ?d ?e ?f] =>
      pose proof (backward_rows_shape a b c d e) as Hshape;
      destruct (backward_rows a b c d e f) as [[ga|] s'] eqn:Hrows
  end; simpl; [|done].
  specialize (Hshape ga (_gradient_sampler self)).
  rewrite Hrows in Hshape. specialize (Hshape eq_refl).
  simpl in Hshape. rewrite <- Hp, <- Hw in Hshape.
  unfold split_gradients, np.getitem_cols_to, np.getitem_cols_from.
  rewrite Hshape. change (Ok ?a ≫= ?f) with (f a). cbv beta.
  intros Hsplit.
  apply bind_Ok_inv in Hsplit as (ig' & Hig & Hsplit).
  change (Ok ?a ≫= ?f) with (f a) in Hsplit. cbv beta in Hsplit.
  apply bind_Ok_inv in Hsplit as (wg' & Hwg & [= <- <-]).
  apply reshape_infer_inv in Hig as (ki & Hig1 & _ & Hig2 & Hig3).
  apply reshape_infer_inv in Hwg as (kw & Hwg1 & _ & Hwg2 & Hwg3).
  assert (∀ d (k : nat), np.prod (d ++ [k]) = np.prod d * k) as Hsnoc.
  { intros d k. rewrite prod_app. unfold np.prod at 2. simpl. lia. }
  rewrite Hsnoc in Hig2, Hig3, Hwg2, Hwg3.
  unfold np.size in Hig2, Hwg2. cbn [np.shape] in Hig2, Hwg2.
  rewrite prod_pair in Hig2, Hwg2.
  rewrite Nat.min_l in Hig2 by lia.
  replace (num_inputs self + num_weights self - num_inputs self)
    with (num_weights self) in Hwg2 by lia.
  assert (ki * np.prod (output_shape self) = n) as Hki by nia.
  assert (kw * np.prod (output_shape self) = n) as Hkw by nia.
  assert (ki = kw) as <- by nia.
  exists ki. by rewrite Hig1, Hwg1.
Qed.

(** X12: in the dictionary of one row of the row-by-row backward pass every
    weight parameter is bound to its weight and every input parameter that
    is not also a weight parameter to its entry in that row of the input;
    nothing else is bound.  Where a parameter is listed more than once,
    its last position counts, and a weight takes precedence over an
    input. *)
Theorem row_binding_lookup self x w pv (row : nat) :
  row_param_values self (Some x) (Some w) row = Ok pv →
  (∀ j q, weight_params self !! j = Some q →
     (∀ j', j < j' → weight_params self !! j' ≠ Some q) →
     ∃ wj, np.getitem w j = Ok wj ∧ pv !! q = Some wj) ∧
  (∀ i p, input_params self !! i = Some p →
     (∀ i', i < i' → input_params self !! i' ≠ Some p) →
     p ∉ weight_params self →
     ∃ entry, np.getitem2 x row i = Ok entry ∧ pv !! p = Some entry) ∧
  (∀ p, p ∉ input_params self → p ∉ weight_params self → pv !! p = None).
Proof.
  unfold row_param_values. intros Hb.
  apply bind_Ok_inv in Hb as (ivals & Hi & Hb).
  apply bind_Ok_inv in Hb as (wvals & Hw & [= <-]).
  unfold update. split; [|split].
  - intros j q Hj Hlast.
    destruct (dict_comprehension_last _ _ _ _ _ _ _ Hw Hj Hlast)
      as (v & Hv & Hq).
    simpl in Hv. exists v. split; [done|]. by apply lookup_union_Some_l.
  - intros i p Hi' Hlast Hp.
    destruct (dict_comprehension_last _ _ _ _ _ _ _ Hi Hi' Hlast)
      as (v & Hv & Hq).
    simpl in Hv. exists v. split; [done|].
    rewrite lookup_union_r; [done|].
    by rewrite (dict_comprehension_notin _ _ _ _ _ p Hw Hp).
  - intros p Hpi Hpw. rewrite lookup_union_r.
    + by rewrite (dict_comprehension_notin _ _ _ _ _ p Hi Hpi).
    + by rewrite (dict_comprehension_notin _ _ _ _ _ p Hw Hpw).
Qed.

(** *** Networks without parameters *)

(** With no input and no weight parameter the dictionary is empty whatever
    the arguments, so a forward pass does not depend on them: two batches
    of different numbers of rows get the same result. *)
Lemma forward_without_parameters self input_data weights input_data' weights' :
  input_params self = [] → weight_params self = [] →
  _forward self input_data weights = _forward self input_data' weights'.
Proof.
  intros Hi Hw. unfold _forward, batch_param_values. by rewrite Hi, Hw.
Qed.

End Further.

(** ** The further properties on the small engine *)

Example network_with_other_gradient :
  __init__ 0%Z toy.observable (Some ["x"]) (Some ["theta"]) None
    (Some toy.twice) None = Ok toy.net_twice.
Proof. reflexivity. Qed.

Lemma init_attributes_witness :
  ∃ q s,
    new_QuantumInstance 3 = inr q ∧
    new_CircuitSampler q (is_aer_provider (backend q)) = inr s ∧
    _quantum_instance (toy.net ["x"] ["theta"] (Some 3)) = Some q ∧
    _circuit_sampler (toy.net ["x"] ["theta"] (Some 3)) = Some s ∧
    _gradient_sampler (toy.net ["x"] ["theta"] (Some 3))
      = Some (deepcopy s).
Proof.
  assert (toy.network ["x"] ["theta"] (Some (ABackend 3))
          = Ok (toy.net ["x"] ["theta"] (Some 3))) as Hinit by reflexivity.
  pose proof (init_attributes 0%Z toy.observable (Some ["x"])
                (Some ["theta"]) None None (Some (ABackend 3))
                (toy.net ["x"] ["theta"] (Some 3)) Hinit)
    as (_ & _ & _ & _ & _ & Hsamplers).
  exact Hsamplers.
Defined.

Lemma init_on_empty_ListOp_witness :
  __init__ 0%Z (ListLike ListOp inr [] : toy.Op) None None None None None
  = Raise IndexError.
Proof.
  apply (init_on_empty_ListOp 0%Z inr None None None None None).
  repeat split; vm_compute; reflexivity.
Defined.

Lemma nested_lists_output_shape_witness :
  _get_output_shape_from_op 0%Z (nested [2; 3; 1] toy.observable)
  = Ok [2; 3].
Proof.
  apply (nested_lists_output_shape 0%Z [2; 3; 1] toy.observable).
  - simpl. discriminate.
  - repeat constructor; lia.
Defined.

Lemma batch_binding_lookup_witness :
  ∃ pv,
    batch_param_values (toy.net ["x"] ["theta"] None)
      (Some (toy.array2 2 1 [3; 5]%Z)) (Some (toy.array1 [7]%Z)) = Ok pv ∧
    pv !! "theta" = Some (np.NDArray [2] [7; 7]%Z) ∧
    pv !! "x" = Some (np.NDArray [2] [3; 5]%Z) ∧
    pv !! "y" = None.
Proof.
  destruct (batch_param_values (toy.net ["x"] ["theta"] None)
              (Some (toy.array2 2 1 [3; 5]%Z)) (Some (toy.array1 [7]%Z)))
    as [pv|] eqn:Hb; [|by vm_compute in Hb].
  exists pv. split; [reflexivity|].
  destruct (batch_binding_lookup (toy.net ["x"] ["theta"] None)
              (toy.array2 2 1 [3; 5]%Z) (toy.array1 [7]%Z) pv 2 [1]
              Hb eq_refl) as (Hweight & Hinput & Hnone).
  split; [|split].
  - destruct (Hweight 0 "theta" eq_refl) as (wj & Hget & Hlook).
    { intros [|j] Hj; [lia|]. simpl. discriminate. }
    vm_compute in Hget. injection Hget as <-. exact Hlook.
  - destruct (Hinput 0 "x" eq_refl) as (col & Hget & Hlook).
    { intros [|i] Hi; [lia|]. simpl. discriminate. }
    { simpl. intros Hin. apply list_elem_of_singleton in Hin. discriminate. }
    vm_compute in Hget. injection Hget as <-. exact Hlook.
  - apply Hnone; simpl; intros Hin;
      apply list_elem_of_singleton in Hin; discriminate.
Defined.

Lemma passes_raise_IndexError_witness :
  _forward (toy.net ["x"; "y"] ["theta"] None)
    (Some (toy.array2 2 1 [3; 5]%Z)) (Some (toy.array1 [7]%Z))
  = (Raise IndexError, toy.net ["x"; "y"] ["theta"] None) ∧
  _backward_batch (toy.net ["x"; "y"] ["theta"] None)
    (Some (toy.array2 2 1 [3; 5]%Z)) (Some (toy.array1 [7]%Z))
  = (Raise IndexError, toy.net ["x"; "y"] ["theta"] None) ∧
  _backward 0%Z (toy.net ["x"; "y"] ["theta"] None)
    (Some (toy.array2 2 1 [3; 5]%Z)) (Some (toy.array1 [7]%Z))
  = (Raise IndexError, toy.net ["x"; "y"] ["theta"] None).
Proof.
  assert (1 < length (input_params (toy.net ["x"; "y"] ["theta"] None)))
    as Hcolumns by (simpl; lia).
  destruct (passes_raise_IndexError 0%Z (toy.net ["x"; "y"] ["theta"] None)
              (toy.array2 2 1 [3; 5]%Z) (Some (toy.array1 [7]%Z)) 2 1
              eq_refl (or_introl Hcolumns))
    as (Hforward & Hbatch & Hrows).
  split; [exact Hforward|]. split; [exact Hbatch|].
  exact (Hrows ltac:(lia)).
Defined.

Lemma backward_on_empty_batch_witness :
  (_backward 0%Z (toy.net ["x"] ["theta"] (Some 3))
     (Some (toy.array2 0 1 [])) None).2
  = toy.net ["x"] ["theta"] (Some 3) ∧
  (_backward 0%Z (toy.net ["x"] ["theta"] (Some 3))
     (Some (toy.array2 0 1 [])) None).1
  = Ok (np.NDArray [0; 1; 1] [], np.NDArray [0; 1; 1] []).
Proof.
  destruct (backward_on_empty_batch 0%Z (toy.net ["x"] ["theta"] (Some 3))
              (toy.array2 0 1 []) None [1] eq_refl) as [Hstate Hgrads].
  split; [exact Hstate|].
  exact (Hgrads ltac:(simpl; lia) ltac:(simpl; lia) ltac:(vm_compute; lia)).
Defined.

Lemma forward_outcome_witness :
  (_forward (toy.net ["x"] ["theta"] None)
     (Some (toy.array2 2 1 [3; 5]%Z)) (Some (toy.array1 [7]%Z))).1
  = Ok (np.NDArray [2; 1] [58; 74]%Z).
Proof.
  destruct (batch_param_values (toy.net ["x"] ["theta"] None)
              (Some (toy.array2 2 1 [3; 5]%Z)) (Some (toy.array1 [7]%Z)))
    as [pv|] eqn:Hb; [|by vm_compute in Hb].
  pose proof Hb as Hpv. vm_compute in Hpv. injection Hpv as <-.
  destruct (forward_outcome (toy.net ["x"] ["theta"] None)
              (Some (toy.array2 2 1 [3; 5]%Z)) (Some (toy.array1 [7]%Z))
              _ (np.NDArray [2] [58; 74]%Z) Hb)
    as [Hreturns _]; [vm_compute; reflexivity|].
  exact (Hreturns ltac:(vm_compute; lia) eq_refl).
Defined.

Lemma backward_row_gradient_must_fit_witness :
  (_backward 0%Z toy.net_twice
     (Some (toy.array2 2 1 [3; 5]%Z)) (Some (toy.array1 [7]%Z))).1
  = Raise ValueError.
Proof.
  destruct (row_param_values toy.net_twice
              (Some (toy.array2 2 1 [3; 5]%Z)) (Some (toy.array1 [7]%Z)) 0)
    as [pv|] eqn:Hb; [|by vm_compute in Hb].
  pose proof Hb as Hpv. vm_compute in Hpv. injection Hpv as <-.
  apply (backward_row_gradient_must_fit 0%Z toy.net_twice
           (toy.array2 2 1 [3; 5]%Z) (Some (toy.array1 [7]%Z)) 1 [1] _
           (np.NDArray [4] [6; 14; 6; 14]%Z) eq_refl Hb).
  - vm_compute. reflexivity.
  - right. exists 4. repeat split; simpl; lia.
Defined.

Lemma backward_batch_needs_two_dimensions_witness :
  (_backward_batch (toy.net [] [] None) None None).1 = Raise IndexError.
Proof.
  apply (backward_batch_needs_two_dimensions (toy.net [] [] None) None None
           ∅ (np.NDArray [0] [])).
  - reflexivity.
  - vm_compute. reflexivity.
  - unfold np.ndim. simpl. lia.
Defined.

Lemma backward_leading_dimension_witness :
  ∃ k,
    np.shape (np.NDArray [2; 1; 1] [6; 10]%Z) = k :: [1] ++ [1] ∧
    np.shape (np.NDArray [2; 1; 1] [14; 14]%Z) = k :: [1] ++ [1] ∧
    k * np.prod [1] = 2.
Proof.
  apply (backward_leading_dimension 0%Z (toy.net ["x"] ["theta"] None)
           (toy.array2 2 1 [3; 5]%Z) (Some (toy.array1 [7]%Z)) 2 [1]
           (np.NDArray [2; 1; 1] [6; 10]%Z)
           (np.NDArray [2; 1; 1] [14; 14]%Z)).
  - reflexivity.
  - reflexivity.
  - reflexivity.
  - vm_compute. reflexivity.
Defined.

Lemma row_binding_lookup_witness :
  ∃ pv,
    row_param_values (toy.net ["x"] ["theta"] None)
      (Some (toy.array2 2 1 [3; 5]%Z)) (Some (toy.array1 [7]%Z)) 1 = Ok pv ∧
    pv !! "theta" = Some (np.NDArray [] [7]%Z) ∧
    pv !! "x" = Some (np.NDArray [] [5]%Z) ∧
    pv !! "y" = None.
Proof.
  destruct (row_param_values (toy.net ["x"] ["theta"] None)
              (Some (toy.array2 2 1 [3; 5]%Z)) (Some (toy.array1 [7]%Z)) 1)
    as [pv|] eqn:Hb; [|by vm_compute in Hb].
  exists pv. split; [reflexivity|].
  destruct (row_binding_lookup (toy.net ["x"] ["theta"] None)
              (toy.array2 2 1 [3; 5]%Z) (toy.array1 [7]%Z) pv 1 Hb)
    as (Hweight & Hinput & Hnone).
  split; [|split].
  - destruct (Hweight 0 "theta" eq_refl) as (wj & Hget & Hlook).
    { intros [|j] Hj; [lia|]. simpl. discriminate. }
    vm_compute in Hget. injection Hget as <-. exact Hlook.
  - destruct (Hinput 0 "x" eq_refl) as (entry & Hget & Hlook).
    { intros [|i] Hi; [lia|]. simpl. discriminate. }
    { simpl. intros Hin. apply list_elem_of_singleton in Hin. discriminate. }
    vm_compute in Hget. injection Hget as <-. exact Hlook.
  - apply Hnone; simpl; intros Hin;
      apply list_elem_of_singleton in Hin; discriminate.
Defined.

(** ** Where the claims as first stated fail *)

(** A network constructed with the default, empty parameter lists, on a
    batch of two rows: the dictionary is empty, the operator is evaluated
    once, and the forward pass returns an array of shape (1, 1), where
    (2, *output_shape) is (2, 1). *)
Lemma forward_of_two_rows_without_parameters :
  __init__ 0%Z toy.observable None None None None None
    = Ok (toy.net [] [] None) ∧
  np.shape (toy.array2 2 0 []) = [2; 0] ∧
  output_shape (toy.net [] [] None) = [1] ∧
  (_forward (toy.net [] [] None)
     (Some (toy.array2 2 0 [])) (Some (toy.array1 []))).1
  = Ok (np.NDArray [1; 1] [0%Z]).
Proof. repeat split; vm_compute; reflexivity. Qed.

